(** * OauthService: federated sign-in of the workspace platform

    A shallow embedding of [server/ee/services/oauth/oauth.service.ts].

    - Part 1, [JS]: the string primitives the service uses
      ([lastIndexOf], [substring], [split], [trim], [includes]) and
      JavaScript truthiness of optional strings; then [isValidDomain].
    - Part 2: the entities (User, Organization, OrganizationUser,
      SSOConfigs), the store, the state and exception monad, and the
      services [OauthService] calls.  Their code is in other files of the
      repository; each is modelled from the specification and says so.
    - Part 3: [OauthService] itself: [findOrCreateUser],
      [findAndActivateUser], [generateLoginResultPayload],
      [getSSOConfigs], [getInstanceSSOConfigs] and [signIn], the latter in
      the phases the specification names: tenant resolution, identity
      exchange, eligibility, provisioning, session.
    - Then the definitions the properties are stated with and a few
      concrete stores, and Part 4, the properties.

    Strings are [String.string]: a JavaScript string whose code units are
    all below 256.  A value that may be [undefined] or [null] is an
    [option].  An asynchronous function is a computation in the monad [M];
    every read and write inside the transaction acts on the store as the
    transaction sees it. *)

From Stdlib Require Import String Ascii List Bool Arith ZArith Lia.
From Stdlib Require Import DecimalString.
Import ListNotations.

Local Open Scope string_scope.
Local Open Scope list_scope.

(* ================================================================== *)
(** * Part 1: JavaScript strings *)
(* ================================================================== *)

Module JS.

(** [!!s] for a string: the empty string is falsy. *)
Definition nonEmpty (s : string) : bool :=
  match s with
  | EmptyString => false
  | String _ _ => true
  end.

(** [!!v] for a value that is a string, [undefined] or [null]. *)
Definition truthy (v : option string) : bool :=
  match v with
  | Some s => nonEmpty s
  | None => false
  end.

(** [a === b] on two optional strings of which [a] comes from a column
    that is [undefined] when absent and [b] from one that is [null] when
    absent: two absent values are never strictly equal. *)
Definition strictEq (a b : option string) : bool :=
  match a, b with
  | Some x, Some y => String.eqb x y
  | _, _ => false
  end.

(** [v === 'lit'] for an optional string against a literal. *)
Definition isLiteral (v : option string) (lit : string) : bool :=
  match v with
  | Some s => String.eqb s lit
  | None => false
  end.

(** [s.lastIndexOf(c)], scanning left to right: [i] is the index of the
    head of [s] and [found] the last match seen so far. *)
Fixpoint lastIndexOfFrom (c : ascii) (s : string) (i found : Z) : Z :=
  match s with
  | EmptyString => found
  | String a s' =>
      lastIndexOfFrom c s' (i + 1) (if Ascii.eqb a c then i else found)
  end.

Definition lastIndexOf (c : ascii) (s : string) : Z :=
  lastIndexOfFrom c s 0 (-1).

Fixpoint drop (n : nat) (s : string) : string :=
  match n, s with
  | O, _ => s
  | S _, EmptyString => EmptyString
  | S n', String _ s' => drop n' s'
  end.

(** [s.substring(start)]: a negative [start] is clamped to 0, one beyond
    the end gives the empty string. *)
Definition substring (start : Z) (s : string) : string :=
  drop (Z.to_nat start) s.

(** [s.split(sep)] for a one-character separator: the pieces between the
    separators, [n + 1] of them for [n] separators. *)
Fixpoint split (sep : ascii) (s : string) : list string :=
  match s with
  | EmptyString => [EmptyString]
  | String a s' =>
      if Ascii.eqb a sep then EmptyString :: split sep s'
      else match split sep s' with
           | [] => [String a EmptyString]
           | p :: ps => String a p :: ps
           end
  end.

(** ECMAScript WhiteSpace and LineTerminator code units below 256:
    TAB, LF, VT, FF, CR, SP and NBSP. *)
Definition isWhiteSpace (a : ascii) : bool :=
  let n := nat_of_ascii a in
  (Nat.leb 9 n && Nat.leb n 13) || Nat.eqb n 32 || Nat.eqb n 160.

Fixpoint trimStart (s : string) : string :=
  match s with
  | EmptyString => EmptyString
  | String a s' => if isWhiteSpace a then trimStart s' else s
  end.

Fixpoint trimEnd (s : string) : string :=
  match s with
  | EmptyString => EmptyString
  | String a s' =>
      let t := trimEnd s' in
      if isWhiteSpace a && negb (nonEmpty t) then EmptyString
      else String a t
  end.

(** [s.trim()] *)
Definition trim (s : string) : string := trimEnd (trimStart s).

(** [l.includes(x)] on an array of strings. *)
Definition includes (l : list string) (x : string) : bool :=
  existsb (String.eqb x) l.

(** [l.join(sep)], the inverse of [split]; used in the properties only. *)
Fixpoint join (sep : ascii) (l : list string) : string :=
  match l with
  | [] => EmptyString
  | [p] => p
  | p :: ps => p ++ String sep (join sep ps)
  end.

End JS.

(* ================================================================== *)
(** * Domain policy *)
(* ================================================================== *)

(** [#isValidDomain(email, restrictedDomain)], lines 35-57.  Both
    arguments reach the function as possibly absent values: [email] is
    [userResponse.email], [restrictedDomain] is [organization.domain]. *)
Definition isValidDomain (email restrictedDomain : option string) : bool :=
  match email with
  | None => false
  | Some email =>
      if negb (JS.nonEmpty email) then false
      else
        let domain := JS.substring (JS.lastIndexOf "@" email + 1) email in
        if negb (JS.truthy restrictedDomain) then true
        else if negb (JS.nonEmpty domain) then false
        else
          match restrictedDomain with
          | None => true
          | Some restrictedDomain =>
              if negb (JS.includes
                         (filter JS.nonEmpty
                            (map (fun e => if JS.nonEmpty e then JS.trim e else e)
                               (JS.split "," restrictedDomain)))
                         domain)
              then false
              else true
          end
  end.

(* ================================================================== *)
(** * Part 2: entities, store and collaborating services *)
(* ================================================================== *)

(** ** Exceptions and results *)

Inductive Exception : Type :=
| UnauthorizedException (message : option string)
| NotAcceptableException (message : string)
| TypeError (message : string)
    (* the JavaScript runtime error, not a declared error kind *)
| CollaboratorError (message : string).
    (* raised by a collaborator: a provider exchange, the license gate *)

Inductive Result (A : Type) : Type :=
| Ok (value : A)
| Throw (e : Exception).
Arguments Ok {A} value.
Arguments Throw {A} e.

Definition isUnauthorized (e : Exception) : bool :=
  match e with UnauthorizedException _ => true | _ => false end.

Definition isNotAcceptable (e : Exception) : bool :=
  match e with NotAcceptableException _ => true | _ => false end.

(** ** Entities *)

Inductive UserStatus : Type := UserActive | UserInvited | UserArchived.

Inductive MembershipStatus : Type := Invited | Active.

Definition MembershipStatus_eqb (a b : MembershipStatus) : bool :=
  match a, b with
  | Invited, Invited | Active, Active => true
  | _, _ => false
  end.

Record User : Type := mkUser {
  user_id : string;
  user_email : string;
  user_firstName : option string;
  user_lastName : option string;
  user_status : UserStatus;
  user_invitationToken : option string;
  user_defaultOrganizationId : option string;
  user_superAdmin : bool
}.

Record OrganizationUser : Type := mkOrganizationUser {
  ou_id : string;
  ou_userId : string;
  ou_organizationId : option string;
  ou_status : MembershipStatus
}.

Record Configs : Type := mkConfigs {
  clientId : option string;
  clientSecret : option string;
  hostName : option string;
  wellKnownUrl : option string
}.

(** [Partial<SSOConfigs>]: every field may be missing. *)
Record SSOConfigs : Type := mkSSOConfigs {
  sso_id : option string;
  sso : option string;
  sso_enabled : option bool;
  sso_configs : option Configs
}.

(** [DeepPartial<Organization>]: the organization synthesized for the
    common login page has neither [id] nor [name]. *)
Record Organization : Type := mkOrganization {
  org_id : option string;
  org_name : option string;
  enableSignUp : bool;
  domain : option string;
  ssoConfigs : list SSOConfigs
}.

Record GroupUser : Type := mkGroupUser {
  gu_userId : string;
  gu_organizationId : option string;
  gu_group : string
}.

(** [UserResponse]: the normalized identity a provider returns. *)
Record UserResponse : Type := mkUserResponse {
  userSSOId : option string;
  email : option string;
  firstName : option string;
  lastName : option string
}.

(** ** The store *)

Record Store : Type := mkStore {
  users : list User;
  organizations : list Organization;
  organizationUsers : list OrganizationUser;
  groupUsers : list GroupUser;
  nextId : nat
}.

(** One call of a provider's [signIn]: the provider tag and the token. *)
Definition Exchange : Type := (string * string)%type.

(** What a request can change: the database and the provider calls made.
    A rolled back transaction restores [db] only. *)
Record World : Type := mkWorld {
  db : Store;
  exchanges : list Exchange
}.

(** ** State and exception monad *)

Definition M (A : Type) : Type := World -> Result A * World.

Definition ret {A} (a : A) : M A := fun w => (Ok a, w).

Definition throw {A} (e : Exception) : M A := fun w => (Throw e, w).

Definition bind {A B} (m : M A) (k : A -> M B) : M B :=
  fun w =>
    match m w with
    | (Ok a, w') => k a w'
    | (Throw e, w') => (Throw e, w')
    end.

Notation "x <- m ;; k" := (bind m (fun x => k))
  (at level 61, m at next level, right associativity).
Notation "' pat <- m ;; k" := (bind m (fun x => match x with pat => k end))
  (at level 61, pat pattern, m at next level, right associativity).
Notation "m ;;; k" := (bind m (fun _ => k))
  (at level 61, right associativity).

(** A query: reads the database, changes nothing. *)
Definition query {A} (f : Store -> A) : M A := fun w => (Ok (f (db w)), w).

(** A write to the database. *)
Definition update (f : Store -> Store) : M unit :=
  fun w => (Ok tt, mkWorld (f (db w)) (exchanges w)).

(** Modelled from the spec: [dbTransactionWrap] of
    [src/helpers/utils.helper], whose code is in another file.
    Section 4.4: the provisioning runs as one atomic unit of work; any
    failure inside aborts all writes made within it; the failure is
    surfaced to the caller as the originating error. *)
Definition dbTransactionWrap {A} (operation : M A) : M A :=
  fun w =>
    match operation w with
    | (Ok a, w') => (Ok a, w')
    | (Throw e, w') => (Throw e, mkWorld (db w) (exchanges w'))
    end.

(** ** Identifiers *)

Definition genId (n : nat) : string :=
  "gen-" ++ NilEmpty.string_of_uint (Nat.to_uint n).

(** The identifier the database gives to a new row. *)
Definition freshId : M string :=
  fun w =>
    let s := db w in
    (Ok (genId (nextId s)),
     mkWorld (mkStore (users s) (organizations s) (organizationUsers s)
                (groupUsers s) (S (nextId s)))
             (exchanges w)).

Definition addUser (u : User) (s : Store) : Store :=
  mkStore (users s ++ [u]) (organizations s) (organizationUsers s)
    (groupUsers s) (nextId s).

Definition addOrganization (o : Organization) (s : Store) : Store :=
  mkStore (users s) (organizations s ++ [o]) (organizationUsers s)
    (groupUsers s) (nextId s).

Definition addOrganizationUser (m : OrganizationUser) (s : Store) : Store :=
  mkStore (users s) (organizations s) (organizationUsers s ++ [m])
    (groupUsers s) (nextId s).

Definition addGroupUsers (g : list GroupUser) (s : Store) : Store :=
  mkStore (users s) (organizations s) (organizationUsers s)
    (groupUsers s ++ g) (nextId s).

Definition mapUsers (f : User -> User) (s : Store) : Store :=
  mkStore (map f (users s)) (organizations s) (organizationUsers s)
    (groupUsers s) (nextId s).

Definition mapOrganizationUsers (f : OrganizationUser -> OrganizationUser)
    (s : Store) : Store :=
  mkStore (users s) (organizations s) (map f (organizationUsers s))
    (groupUsers s) (nextId s).

(** Modelled from the spec: [isSuperAdmin] of [src/helpers/utils.helper].
    The glossary makes the super-administrator a platform-level property
    of the identity; an absent user is not one. *)
Definition isSuperAdmin (user : option User) : bool :=
  match user with
  | Some u => user_superAdmin u
  | None => false
  end.

(** ** Collaborators that are parameters of the service

    Configuration, licence, instance settings, the identity providers and
    the token signer are outside the service; everything below holds for
    every choice of them. *)
Record Env : Type := mkEnv {
  (** [configService.get<string>(key)] *)
  configService_get : string -> option string;
  (** [License.Instance.oidc] *)
  License_oidc : bool;
  (** [instanceSettingsService.getSettings(key)] *)
  instanceSettingsService_getSettings : string -> option string;
  (** [googleOAuthService.signIn(token, configs)] *)
  googleOAuthService_signIn :
    string -> option Configs -> Result UserResponse;
  (** [gitOAuthService.signIn(token, configs)] *)
  gitOAuthService_signIn :
    string -> option Configs -> Result UserResponse;
  (** [oidcOAuthService.signIn(token, {...configs, configId, codeVerifier})] *)
  oidcOAuthService_signIn :
    string -> option Configs -> option string -> option string ->
    Result UserResponse;
  (** what [usersService.validateLicense] throws on the store it sees,
      [None] when the licence and the seats allow it *)
  licenseViolation : Store -> option Exception;
  (** [jwtService.sign(payload)]; the payload is
      [(username, sub, organizationId, isSSOLogin)] *)
  jwtService_sign : string * string * option string * bool -> string;
  (** [usersService.groupPermissions(user)] and
      [usersService.appGroupPermissions(user)], for the user as bound to
      an organization *)
  usersService_groupPermissions :
    Store -> User -> option string -> list string;
  usersService_appGroupPermissions :
    Store -> User -> option string -> list string
}.

(** ** OrganizationUsersService *)

Module organizationUsersService.

(** Modelled from the spec: [OrganizationUsersService.create(user,
    organization, flag, manager)].  Section 4.4: the membership created
    with the
    flag [false] is inactive at creation ([active=false]) and is left for
    the caller to activate; section 3: a membership links one user and
    one organization and its status is invited or active. *)
Definition create (user : User) (organization : Organization)
    (active : bool) : M OrganizationUser :=
  id <- freshId ;;
  let organizationUser :=
    mkOrganizationUser id (user_id user) (org_id organization)
      (if active then Active else Invited) in
  update (addOrganizationUser organizationUser) ;;;
  ret organizationUser.

Definition activateRow (id : option string) (m : OrganizationUser)
    : OrganizationUser :=
  if JS.strictEq (Some (ou_id m)) id
  then mkOrganizationUser (ou_id m) (ou_userId m) (ou_organizationId m) Active
  else m.

(** Modelled from the spec: [OrganizationUsersService.activate(id)].
    Section 3: the membership moves invited to active; the argument is the
    identifier of the OrganizationUser row, as in
    [activate(organizationUser.id, manager)] on lines 81 and 98. *)
Definition activate (id : option string) : M unit :=
  update (mapOrganizationUsers (activateRow id)).

End organizationUsersService.

(** ** UsersService *)

Module usersService.

(** The memberships of user [userId] in organization [organizationId]
    whose status is one of [statuses]. *)
Definition membershipsIn (s : Store) (userId organizationId : string)
    (statuses : list MembershipStatus) : list OrganizationUser :=
  filter
    (fun m =>
       String.eqb (ou_userId m) userId
       && JS.strictEq (ou_organizationId m) (Some organizationId)
       && existsb (MembershipStatus_eqb (ou_status m)) statuses)
    (organizationUsers s).

(** Modelled from the spec: [UsersService.findByEmail(email,
    organizationId?, status?)].  Without an organization it is the user
    with that email (section 4.6, step 2).  With one it is the lookup of
    section 4.4: the user by email scoped to that organization among the
    given statuses, absent when the email has no such membership; the
    user comes with these memberships as [organizationUsers]. *)
Definition findByEmail (s : Store) (email organizationId : option string)
    (statuses : list MembershipStatus)
    : option (User * list OrganizationUser) :=
  match organizationId with
  | Some organizationId' =>
      if JS.nonEmpty organizationId' then
        option_map
          (fun u => (u, membershipsIn s (user_id u) organizationId' statuses))
          (find
             (fun u =>
                JS.strictEq (Some (user_email u)) email
                && negb (Nat.eqb
                     (length (membershipsIn s (user_id u) organizationId'
                                statuses)) 0))
             (users s))
      else
        option_map (fun u => (u, []))
          (find (fun u => JS.strictEq (Some (user_email u)) email) (users s))
  | None =>
      option_map (fun u => (u, []))
        (find (fun u => JS.strictEq (Some (user_email u)) email) (users s))
  end.

(** Modelled from the spec: [UsersService.create(params, organizationId,
    groups, existingUser, ...)].  Section 4.4: creates the user when it is
    new, with the given default groups in that organization; section 3:
    no invitation token is pending on a user this flow creates, and the
    organization it is created in is its default organization. *)
Definition create (params : UserResponse) (organizationId : option string)
    (groups : list string) (existingUser : option User) : M User :=
  user <- match existingUser with
          | Some u => ret u
          | None =>
              id <- freshId ;;
              let u :=
                mkUser id
                  (match email params with Some e => e | None => "" end)
                  (firstName params) (lastName params)
                  UserActive None organizationId false in
              update (addUser u) ;;;
              ret u
          end ;;
  update (addGroupUsers
            (map (fun g => mkGroupUser (user_id user) organizationId g)
               groups)) ;;;
  ret user.

(** Whether user [u] has a membership, of any status, in the
    organization. *)
Definition isMemberOf (s : Store) (u : User) (organizationId : option string)
    : bool :=
  existsb
    (fun m =>
       String.eqb (ou_userId m) (user_id u)
       && JS.strictEq (ou_organizationId m) organizationId)
    (organizationUsers s).

(** Modelled from the spec: [UsersService.findOrCreateByEmail(params,
    organizationId)] returning [{ user, newUserCreated }].  Section 4.4,
    find-or-create: when the email has no membership in the organization,
    the user is created if it is new and the caller creates the
    membership; so the flag reports that the user was just provisioned
    into the organization, and is [false] only for a user who is in it
    already. *)
Definition findOrCreateByEmail (params : UserResponse)
    (organizationId : option string) : M (User * bool) :=
  found <- query (fun s => findByEmail s (email params) None []) ;;
  match found with
  | Some (u, _) =>
      inOrganization <- query (fun s => isMemberOf s u organizationId) ;;
      if inOrganization then ret (u, false)
      else
        user <- create params organizationId ["all_users"] (Some u) ;;
        ret (user, true)
  | None =>
      user <- create params organizationId ["all_users"] None ;;
      ret (user, true)
  end.

Definition clearInvitationToken (id : string) (u : User) : User :=
  if String.eqb (user_id u) id
  then mkUser (user_id u) (user_email u) (user_firstName u) (user_lastName u)
         (user_status u) None (user_defaultOrganizationId u)
         (user_superAdmin u)
  else u.

(** Modelled from the spec: [UsersService.updateUser(id,
    { invitationToken: null })], the only update this service asks for. *)
Definition updateUser_invitationToken_null (id : string) : M unit :=
  update (mapUsers (clearInvitationToken id)).

(** Modelled from the spec: [UsersService.getCount()], zero exactly for
    the very first user in the entire system (section 4.4). *)
Definition getCount (s : Store) : nat := length (users s).

(** [UsersService.validateLicense(manager)]: the license and seat check,
    on the store as the transaction sees it. *)
Definition validateLicense (env : Env) : M unit :=
  fun w =>
    match licenseViolation env (db w) with
    | Some e => (Throw e, w)
    | None => (Ok tt, w)
    end.

(** Modelled from the spec: [UsersService.hasGroup(user, group)] for the
    user as bound to an organization (line 114 sets
    [user.organizationId]). *)
Definition hasGroup (s : Store) (u : User) (organizationId : option string)
    (group : string) : bool :=
  existsb
    (fun g =>
       String.eqb (gu_userId g) (user_id u)
       && JS.strictEq (gu_organizationId g) organizationId
       && String.eqb (gu_group g) group)
    (groupUsers s).

End usersService.

(** ** OrganizationsService *)

Module organizationService.

Definition hasId (id : option string) (o : Organization) : bool :=
  JS.strictEq (org_id o) id.

Fixpoint findConfig (configId : option string) (orgs : list Organization)
    : option (SSOConfigs * Organization) :=
  match orgs with
  | [] => None
  | o :: rest =>
      match find (fun c => JS.strictEq (sso_id c) configId)
                 (ssoConfigs o) with
      | Some c => Some (c, o)
      | None => findConfig configId rest
      end
  end.

(** Modelled from the spec: [OrganizationsService.getConfigs(configId)].
    Section 4.1, mode 1: the SSOConfig with that id, together with its
    owning organization; absent when there is none. *)
Definition getConfigs (s : Store) (configId : option string)
    : option (SSOConfigs * Organization) :=
  findConfig configId (organizations s).

(** Modelled from the spec: [OrganizationsService.fetchOrganizationDetails
    (organizationId, [true], false, true)].  Section 4.1, mode 2: the
    organization with that id, with its configured providers. *)
Definition fetchOrganizationDetails (s : Store)
    (organizationId : option string) : option Organization :=
  find (hasId organizationId) (organizations s).

(** Modelled from the spec: [OrganizationsService.create(name, user,
    manager)].  Section 4.4: a new organization of that name; given a
    user, the workspace is created for that user, who becomes its member
    (a membership created like the others of this flow) with the groups
    of a workspace owner. *)
Definition create (name : string) (user : option User) : M Organization :=
  id <- freshId ;;
  let organization := mkOrganization (Some id) (Some name) false None [] in
  update (addOrganization organization) ;;;
  match user with
  | Some u =>
      organizationUsersService.create u organization false ;;;
      update (addGroupUsers
                (map (fun g => mkGroupUser (user_id u) (Some id) g)
                   ["all_users"; "admin"])) ;;;
      ret organization
  | None => ret organization
  end.

Definition ssoLoginEnabled (o : Organization) : bool :=
  existsb
    (fun c => match sso_enabled c with Some true => true | _ => false end)
    (ssoConfigs o).

Definition hasActiveMembership (s : Store) (u : User) (o : Organization)
    : bool :=
  existsb
    (fun m =>
       String.eqb (ou_userId m) (user_id u)
       && JS.strictEq (ou_organizationId m) (org_id o)
       && MembershipStatus_eqb (ou_status m) Active)
    (organizationUsers s).

(** Modelled from the spec: [OrganizationsService.
    findOrganizationWithLoginSupport(user, 'sso')].  Section 4.4: the
    organizations for which this user has SSO-enabled login rights: the
    user is an active member and a provider is enabled. *)
Definition findOrganizationWithLoginSupport (s : Store) (u : User)
    : list Organization :=
  filter (fun o => hasActiveMembership s u o && ssoLoginEnabled o)
    (organizations s).

(** Modelled from the spec: [OrganizationsService.getSingleOrganization()],
    any single organization in the system (section 4.4). *)
Definition getSingleOrganization (s : Store) : option Organization :=
  hd_error (organizations s).

(** [manager.findOne(Organization, { id })] *)
Definition findOne (s : Store) (id : option string) : option Organization :=
  find (hasId id) (organizations s).

End organizationService.

(* ================================================================== *)
(** * Part 3: OauthService *)
(* ================================================================== *)

(** [SSOResponse]: the fields [signIn] reads. *)
Record SSOResponse : Type := mkSSOResponse {
  token : string;
  organizationId : option string
}.

(** The [cookies] object: the one entry [signIn] reads. *)
Record Cookies : Type := mkCookies {
  oidc_code_verifier : option string
}.

(** The object [#generateLoginResultPayload] returns, keys as
    [decamelizeKeys] leaves them. *)
Module Payload.
Record t : Type := mk {
  id : string;
  auth_token : string;
  email : string;
  first_name : option string;
  last_name : option string;
  organization_id : option string;
  organization : option string;
  super_admin : bool;
  admin : bool;
  group_permissions : list string;
  app_group_permissions : list string
}.
End Payload.

Module OauthService.

Definition when (b : bool) (m : M unit) : M unit :=
  if b then m else ret tt.

(** [#findOrCreateUser({ firstName, lastName, email }, organization,
    manager)], lines 59-85. *)
Definition findOrCreateUser (userResponse : UserResponse)
    (organization : Organization) : M User :=
  existingUser <-
    query (fun s =>
             usersService.findByEmail s (email userResponse)
               (org_id organization) [Active; Invited]) ;;
  let organizationUser :=
    match existingUser with
    | Some (_, organizationUsers) => hd_error organizationUsers
    | None => None
    end in
  match existingUser, organizationUser with
  | Some (existingUser, _), Some organizationUser =>
      when (negb (MembershipStatus_eqb (ou_status organizationUser) Active))
        (organizationUsersService.activate (Some (ou_id organizationUser))) ;;;
      ret existingUser
  | _, _ =>
      (* User not exist in the workspace *)
      '(user, newUserCreated) <-
        usersService.findOrCreateByEmail
          (mkUserResponse None (email userResponse) (firstName userResponse)
             (lastName userResponse))
          (org_id organization) ;;
      when newUserCreated
        (organizationUsersService.create user organization false ;;; ret tt) ;;;
      ret user
  end.

(** [#findAndActivateUser(email, organizationId, manager)],
    lines 87-101. *)
Definition findAndActivateUser (email organizationId : option string)
    : M User :=
  user <-
    query (fun s =>
             usersService.findByEmail s email organizationId
               [Active; Invited]) ;;
  match user with
  | None =>
      throw (UnauthorizedException
               (Some "User does not exist in the workspace"))
  | Some (user, organizationUsers) =>
      match hd_error organizationUsers with
      | None =>
          throw (UnauthorizedException
                   (Some "User does not exist in the workspace"))
      | Some organizationUser =>
          when (negb (MembershipStatus_eqb (ou_status organizationUser)
                        Active))
            (organizationUsersService.activate
               (Some (ou_id organizationUser))) ;;;
          ret user
      end
  end.

(** [#generateLoginResultPayload(user, organization, isInstanceSSO)],
    lines 103-129. *)
Definition generateLoginResultPayload (env : Env) (user : User)
    (organization : Organization) (isInstanceSSO : bool) : M Payload.t :=
  let JWTPayload :=
    (user_id user, user_email user, org_id organization, isInstanceSSO) in
  query (fun s =>
    Payload.mk
      (user_id user)
      (jwtService_sign env JWTPayload)
      (user_email user)
      (user_firstName user)
      (user_lastName user)
      (org_id organization)
      (org_name organization)
      (isSuperAdmin (Some user))
      (usersService.hasGroup s user (org_id organization) "admin")
      (usersService_groupPermissions env s user (org_id organization))
      (usersService_appGroupPermissions env s user (org_id organization))).

(** [#getSSOConfigs(ssoType)], lines 131-159: [enabled] and [configs] of
    the instance-level provider, nothing for any other tag. *)
Definition getSSOConfigs (env : Env) (ssoType : option string)
    : option (bool * Configs) :=
  let get := configService_get env in
  if JS.isLiteral ssoType "google" then
    Some (JS.truthy (get "SSO_GOOGLE_OAUTH2_CLIENT_ID"),
          mkConfigs (get "SSO_GOOGLE_OAUTH2_CLIENT_ID") None None None)
  else if JS.isLiteral ssoType "git" then
    Some (JS.truthy (get "SSO_GIT_OAUTH2_CLIENT_ID"),
          mkConfigs (get "SSO_GIT_OAUTH2_CLIENT_ID")
            (get "SSO_GIT_OAUTH2_CLIENT_SECRET")
            (get "SSO_GIT_OAUTH2_HOST") None)
  else if JS.isLiteral ssoType "openid" then
    Some (JS.truthy (get "SSO_OPENID_CLIENT_ID"),
          mkConfigs (get "SSO_OPENID_CLIENT_ID")
            (get "SSO_OPENID_CLIENT_SECRET") None
            (get "SSO_OPENID_WELL_KNOWN_URL"))
  else None.

(** [#getInstanceSSOConfigs(ssoType)], lines 161-170: the config and the
    organization it carries. *)
Definition getInstanceSSOConfigs (env : Env) (ssoType : option string)
    : SSOConfigs * Organization :=
  let organization :=
    mkOrganization None None
      (negb (JS.isLiteral (configService_get env "SSO_DISABLE_SIGNUPS")
               "true"))
      (configService_get env "SSO_ACCEPTED_DOMAINS")
      [] in
  let spread := getSSOConfigs env ssoType in
  (mkSSOConfigs None ssoType (option_map fst spread) (option_map snd spread),
   organization).

(** [isSingleOrganization], line 181. *)
Definition isSingleOrganization (env : Env) : bool :=
  JS.isLiteral (configService_get env "DISABLE_MULTI_WORKSPACE") "true".

(** Lines 183-197 of [signIn]: the SSO configs and the organization the
    request resolves to, either of which may come back absent. *)
Definition resolveTenant (env : Env) (ssoResponse : SSOResponse)
    (configId ssoType : option string)
    : M (option SSOConfigs * option Organization) :=
  let organizationId := organizationId ssoResponse in
  if JS.truthy configId then
    (* SSO under an organization *)
    ssoConfigs <- query (fun s => organizationService.getConfigs s configId) ;;
    ret (option_map fst ssoConfigs, option_map snd ssoConfigs)
  else if negb (isSingleOrganization env) && JS.truthy ssoType
            && JS.truthy organizationId then
    (* Instance SSO login from organization login page *)
    organization <-
      query (fun s =>
               organizationService.fetchOrganizationDetails s organizationId) ;;
    ret (match organization with
         | Some o =>
             find (fun conf => JS.strictEq (sso conf) ssoType) (ssoConfigs o)
         | None => None
         end,
         organization)
  else if negb (isSingleOrganization env) && JS.truthy ssoType then
    (* Instance SSO login from common login page *)
    let ssoConfigs := getInstanceSSOConfigs env ssoType in
    ret (Some (fst ssoConfigs), Some (snd ssoConfigs))
  else throw (UnauthorizedException None).

(** A call of a provider's [signIn]: it is recorded and its outcome is
    the provider's. *)
Definition exchange (provider token : string)
    (outcome : Result UserResponse) : M UserResponse :=
  fun w => (outcome, mkWorld (db w) (exchanges w ++ [(provider, token)])).

(** Lines 207-230 of [signIn]: the [switch (sso)].  [userResponse] stays
    [undefined] in the [default] case. *)
Definition exchangeIdentity (env : Env) (sso : option string)
    (configs : option Configs) (token : string) (configId : option string)
    (cookies : option Cookies) : M (option UserResponse) :=
  if JS.isLiteral sso "google" then
    userResponse <-
      exchange "google" token (googleOAuthService_signIn env token configs) ;;
    ret (Some userResponse)
  else if JS.isLiteral sso "git" then
    userResponse <-
      exchange "git" token (gitOAuthService_signIn env token configs) ;;
    ret (Some userResponse)
  else if JS.isLiteral sso "openid" then
    if negb (License_oidc env) then
      throw (UnauthorizedException (Some "OIDC login disabled"))
    else
      match cookies with
      | None =>
          throw (TypeError
                   "Cannot read properties of undefined (reading 'oidc_code_verifier')")
      | Some cookies =>
          userResponse <-
            exchange "openid" token
              (oidcOAuthService_signIn env token configs configId
                 (oidc_code_verifier cookies)) ;;
          ret (Some userResponse)
      end
  else ret None.

(** What the checks of lines 232-254 hand to the transaction. *)
Record Eligible : Type := mkEligible {
  el_userResponse : UserResponse;
  el_userDetails : option User;
  el_allowPersonalWorkspace : bool
}.

(** Lines 232-254 of [signIn]: the eligibility checks, the default first
    name and [allowPersonalWorkspace]. *)
Definition checkEligibility (env : Env) (userResponse : option UserResponse)
    (domain : option string) : M Eligible :=
  match userResponse with
  | None =>
      throw (TypeError
               "Cannot read properties of undefined (reading 'userSSOId')")
  | Some userResponse =>
      if negb (JS.truthy (userSSOId userResponse)
               && JS.truthy (email userResponse)) then
        throw (UnauthorizedException (Some "Invalid credentials"))
      else
        found <-
          query (fun s =>
                   usersService.findByEmail s (email userResponse) None []) ;;
        let userDetails := option_map fst found in
        if match userDetails with
           | Some u =>
               match user_status u with UserArchived => true | _ => false end
           | None => false
           end then
          throw (NotAcceptableException
                   "User has been removed from the system, please contact the administrator")
        else if negb (isSuperAdmin userDetails)
                && negb (isValidDomain (email userResponse) domain) then
          throw (UnauthorizedException
                   (Some "You cannot sign in using the mail id - Domain verification failed"))
        else
          let userResponse :=
            if negb (JS.truthy (firstName userResponse)) then
              (* If firstName not found *)
              mkUserResponse (userSSOId userResponse) (email userResponse)
                (match email userResponse with
                 | Some e => hd_error (JS.split "@" e)
                 | None => None
                 end)
                (lastName userResponse)
            else userResponse in
          count <- query usersService.getCount ;;
          let allowPersonalWorkspace :=
            isSuperAdmin userDetails
            || JS.isLiteral
                 (instanceSettingsService_getSettings env
                    "ALLOW_PERSONAL_WORKSPACE") "true"
            || Nat.eqb count 0 in
          ret (mkEligible userResponse userDetails allowPersonalWorkspace)
  end.

(** Lines 295-323 of [signIn]: finding the organization to be loaded for
    a user the common login page did not just create. *)
Definition selectOrganization (userDetails : User)
    (allowPersonalWorkspace : bool) : M Organization :=
  organizationList <-
    (if negb (isSuperAdmin (Some userDetails)) then
       query (fun s =>
                organizationService.findOrganizationWithLoginSupport s
                  userDetails)
     else
       superAdminOrganization <- (* Default organization or pick any *)
         query (fun s =>
                  match organizationService.findOne s
                          (user_defaultOrganizationId userDetails) with
                  | Some o => Some o
                  | None => organizationService.getSingleOrganization s
                  end) ;;
       match superAdminOrganization with
       | Some o => ret [o]
       | None =>
           (* [organizationList] is [[undefined]] and line 309 reads
              [og.id] of its element *)
           throw (TypeError
                    "Cannot read properties of undefined (reading 'id')")
       end) ;;
  let defaultOrgDetails :=
    find
      (fun og =>
         JS.strictEq (org_id og) (user_defaultOrganizationId userDetails))
      organizationList in
  match defaultOrgDetails with
  | Some defaultOrgDetails =>
      (* default organization SSO login enabled *)
      ret defaultOrgDetails
  | None =>
      match organizationList with
      | first :: _ =>
          (* default organization SSO login not enabled, picking first one
             from SSO enabled list *)
          ret first
      | [] =>
          if allowPersonalWorkspace then
            (* no SSO login enabled organization available for user -
               creating new one *)
            organizationService.create "Untitled workspace" (Some userDetails)
          else
            throw (UnauthorizedException
                     (Some "User not included in any workspace"))
      end
  end.

(** Lines 260-335 of [signIn]: the two branches of the operation handed
    to [dbTransactionWrap].  They yield the [userDetails] and
    [organizationDetails] the enclosing function reads afterwards.  The
    guard of line 330 is not reached with an absent user: both helpers
    return one or throw. *)
Definition provisionUserAndOrganization (env : Env)
    (organization : Organization) (organizationId : option string)
    (isInstanceSSOLogin : bool) (e : Eligible) : M (User * Organization) :=
  let enableSignUp := enableSignUp organization in
  let userResponse := el_userResponse e in
  let allowPersonalWorkspace := el_allowPersonalWorkspace e in
  if negb (isSingleOrganization env) && isInstanceSSOLogin
     && negb (JS.truthy organizationId) then
    (* Login from main login page - Multi-Workspace enabled *)
    match el_userDetails e with
    | None =>
        if enableSignUp && allowPersonalWorkspace then
          (* Create new user *)
          (* Not logging in to specific organization, creating new *)
          defaultOrganization <-
            organizationService.create "Untitled workspace" None ;;
          let groups := ["all_users"; "admin"] in
          userDetails <-
            usersService.create
              (mkUserResponse None (email userResponse)
                 (firstName userResponse) (lastName userResponse))
              (org_id defaultOrganization) groups None ;;
          organizationUsersService.create userDetails defaultOrganization
            false ;;;
          ret (userDetails, defaultOrganization)
        else
          throw (UnauthorizedException
                   (Some "User does not exist in the workspace"))
    | Some userDetails =>
        when (JS.truthy (user_invitationToken userDetails))
          ((* User account setup not done, activating default
              organization *)
           usersService.updateUser_invitationToken_null
             (user_id userDetails) ;;;
           organizationUsersService.activate
             (user_defaultOrganizationId userDetails)) ;;;
        organizationDetails <-
          selectOrganization userDetails allowPersonalWorkspace ;;
        ret (userDetails, organizationDetails)
    end
  else
    (* Direct login to an organization/single workspace enabled *)
    userDetails <-
      (if negb enableSignUp
       then findAndActivateUser (email userResponse) (org_id organization)
       else findOrCreateUser userResponse organization) ;;
    ret (userDetails, organization).

(** Lines 259-337 of [signIn]: the whole operation of the transaction,
    the branches above and then the license validation of line 336. *)
Definition provision (env : Env) (organization : Organization)
    (organizationId : option string) (isInstanceSSOLogin : bool)
    (e : Eligible) : M (User * Organization) :=
  r <- provisionUserAndOrganization env organization organizationId
         isInstanceSSOLogin e ;;
  usersService.validateLicense env ;;;
  ret r.

(** [signIn(ssoResponse, configId, ssoType, cookies)], lines 172-340. *)
Definition signIn (env : Env) (ssoResponse : SSOResponse)
    (configId ssoType : option string) (cookies : option Cookies)
    : M Payload.t :=
  let organizationId := organizationId ssoResponse in
  '(ssoConfigs, organization) <-
    resolveTenant env ssoResponse configId ssoType ;;
  match organization, ssoConfigs with
  | Some organization, Some ssoConfigs =>
      let domain := domain organization in
      let sso := sso ssoConfigs in
      let configs := sso_configs ssoConfigs in
      let token := token ssoResponse in
      userResponse <-
        exchangeIdentity env sso configs token configId cookies ;;
      eligible <- checkEligibility env userResponse domain ;;
      let isInstanceSSOLogin :=
        negb (JS.truthy configId) && JS.truthy ssoType in
      '(userDetails, organizationDetails) <-
        dbTransactionWrap
          (provision env organization organizationId isInstanceSSOLogin
             eligible) ;;
      generateLoginResultPayload env userDetails organizationDetails
        isInstanceSSOLogin
  | _, _ =>
      (* Should obtain organization configs *)
      throw (UnauthorizedException None)
  end.

End OauthService.

(* ================================================================== *)
(** * Definitions the properties are stated with *)
(* ================================================================== *)

Import OauthService.

(** The three resolution modes of section 4.1. *)
Inductive Mode : Type :=
| ExplicitConfig
| InstanceSSOKnownOrganization
| InstanceSSOCommonPage.

(** When each mode applies, in the words of section 4.1: an explicit
    config id; multi-tenant mode, no explicit config, a provider tag and
    an organization id; multi-tenant mode, no explicit config, a provider
    tag and no organization id. *)
Definition applies (env : Env) (ssoResponse : SSOResponse)
    (configId ssoType : option string) (m : Mode) : bool :=
  let multiTenant := negb (isSingleOrganization env) in
  match m with
  | ExplicitConfig => JS.truthy configId
  | InstanceSSOKnownOrganization =>
      multiTenant && negb (JS.truthy configId) && JS.truthy ssoType
      && JS.truthy (organizationId ssoResponse)
  | InstanceSSOCommonPage =>
      multiTenant && negb (JS.truthy configId) && JS.truthy ssoType
      && negb (JS.truthy (organizationId ssoResponse))
  end.

(** What each mode resolves to on a store, in the words of section 4.1. *)
Definition resolveBy (env : Env) (ssoResponse : SSOResponse)
    (configId ssoType : option string) (s : Store) (m : Mode)
    : option SSOConfigs * option Organization :=
  match m with
  | ExplicitConfig =>
      match organizationService.getConfigs s configId with
      | Some (c, o) => (Some c, Some o)
      | None => (None, None)
      end
  | InstanceSSOKnownOrganization =>
      match organizationService.fetchOrganizationDetails s
              (organizationId ssoResponse) with
      | Some o =>
          (find (fun c => JS.strictEq (sso c) ssoType) (ssoConfigs o), Some o)
      | None => (None, None)
      end
  | InstanceSSOCommonPage =>
      (Some (fst (getInstanceSSOConfigs env ssoType)),
       Some (snd (getInstanceSSOConfigs env ssoType)))
  end.


(** [signIn] once the tenant is resolved: lines 203-340. *)
Definition signInResolved (env : Env) (ssoResponse : SSOResponse)
    (configId ssoType : option string) (cookies : option Cookies)
    (ssoConfigs : SSOConfigs) (organization : Organization)
    : M Payload.t :=
  userResponse <-
    exchangeIdentity env (sso ssoConfigs) (sso_configs ssoConfigs)
      (token ssoResponse) configId cookies ;;
  eligible <- checkEligibility env userResponse (domain organization) ;;
  ' (userDetails, organizationDetails) <-
    dbTransactionWrap
      (provision env organization (organizationId ssoResponse)
         (negb (JS.truthy configId) && JS.truthy ssoType) eligible) ;;
  generateLoginResultPayload env userDetails organizationDetails
    (negb (JS.truthy configId) && JS.truthy ssoType).


(** The common login page, multi-workspace enabled: the condition of
    line 260. *)
Definition commonPage (env : Env) (ssoResponse : SSOResponse)
    (configId ssoType : option string) : bool :=
  negb (isSingleOrganization env)
  && (negb (JS.truthy configId) && JS.truthy ssoType)
  && negb (JS.truthy (organizationId ssoResponse)).

(** The candidate organizations of an existing user on the common login
    page (section 4.4): those with SSO login support for the user; for a
    super-administrator the default organization, or else any single
    one. *)
Definition candidateOrganizations (s : Store) (u : User)
    : list Organization :=
  if negb (isSuperAdmin (Some u)) then
    organizationService.findOrganizationWithLoginSupport s u
  else
    match organizationService.findOne s (user_defaultOrganizationId u) with
    | Some o => [o]
    | None =>
        match organizationService.getSingleOrganization s with
        | Some o => [o]
        | None => []
        end
    end.

(** The user's default organization if it is among the candidates, else
    the first candidate. *)
Definition preferred (u : User) (first : Organization)
    (rest : list Organization) : Organization :=
  match find
          (fun og =>
             JS.strictEq (org_id og) (user_defaultOrganizationId u))
          (first :: rest) with
  | Some defaultOrganization => defaultOrganization
  | None => first
  end.

(** Every organization of the store has an identifier. *)
Definition organizationsHaveIds (s : Store) : bool :=
  forallb (fun o => JS.truthy (org_id o)) (organizations s).

(** Store [s] holds a membership of user [u] in organization [og] that
    is active, or is the one row added to a table that had [n] rows. *)
Definition linkedSince (n : nat) (s : Store) (u : User) (og : Organization)
    : Prop :=
  exists m,
    In m (organizationUsers s)
    /\ ou_userId m = user_id u
    /\ ou_organizationId m = org_id og
    /\ (ou_status m = Active
        \/ exists l, organizationUsers s = l ++ [m] /\ length l = n).

(* ================================================================== *)
(** * Concrete stores and collaborators *)
(* ================================================================== *)

Module Examples.

(** The identity of the person whose email is handed in as the token. *)
Definition identity (token : string) : UserResponse :=
  mkUserResponse (Some "subject-1") (Some token) None (Some "Doe").

(** A provider that accepts every token. *)
Definition provider (token : string) (_ : option Configs)
    : Result UserResponse :=
  Ok (identity token).

Definition nothing : string -> option string := fun _ => None.

Definition personalWorkspaces (key : string) : option string :=
  if String.eqb key "ALLOW_PERSONAL_WORKSPACE" then Some "true" else None.

Definition unlimited : Store -> option Exception := fun _ => None.

(** A license for [seats] users. *)
Definition seatLimit (seats : nat) (s : Store) : option Exception :=
  if Nat.ltb seats (length (users s))
  then Some (CollaboratorError "License violation - user limit reached")
  else None.

(** Multi-workspace instance, no instance-level restriction. *)
Definition instance (settings : string -> option string)
    (license : Store -> option Exception) : Env :=
  mkEnv nothing true settings provider provider
    (fun token configs _ _ => provider token configs)
    license (fun _ => "signed") (fun _ _ _ => []) (fun _ _ _ => []).

Definition googleConfig : SSOConfigs :=
  mkSSOConfigs (Some "cfg-google") (Some "google") (Some true)
    (Some (mkConfigs (Some "client-1") None None None)).

(** An organization that restricts sign-in to its domain. *)
Definition acme (enableSignUp : bool) : Organization :=
  mkOrganization (Some "org-acme") (Some "Acme") enableSignUp
    (Some "acme.com") [googleConfig].

(** An organization without provider, so without SSO login rights. *)
Definition lab : Organization :=
  mkOrganization (Some "org-lab") (Some "Lab") false None [].

Definition ann : User :=
  mkUser "user-ann" "ann@acme.com" (Some "Ann") (Some "Doe") UserActive None
    (Some "org-acme") false.

(** Bob was invited into acme and has not completed the setup. *)
Definition bob : User :=
  mkUser "user-bob" "bob@acme.com" (Some "Bob") (Some "Doe") UserInvited
    (Some "invitation-1") (Some "org-acme") false.

Definition eve : User :=
  mkUser "user-eve" "eve@acme.com" (Some "Eve") (Some "Doe") UserArchived None
    (Some "org-acme") false.

Definition root : User :=
  mkUser "user-root" "root@acme.com" (Some "Root") (Some "Doe") UserActive
    None None true.

Definition member (id : string) (u : User) (o : Organization)
    (status : MembershipStatus) : OrganizationUser :=
  mkOrganizationUser id (user_id u) (org_id o) status.

Definition world (us : list User) (os : list Organization)
    (ms : list OrganizationUser) : World :=
  mkWorld (mkStore us os ms [] 0) [].

Definition emptyWorld : World := world [] [] [].

(** Ann is an active member of acme, Eve an archived one. *)
Definition acmeWorld (enableSignUp : bool) : World :=
  world [ann; eve] [acme enableSignUp]
    [member "ou-1" ann (acme enableSignUp) Active;
     member "ou-2" eve (acme enableSignUp) Active].

(** Ann is a member of lab only; acme allows sign-up. *)
Definition annInLab : World :=
  world [ann] [acme true; lab] [member "ou-1" ann lab Active].

(** Bob with his pending invitation into acme. *)
Definition bobInvited : World :=
  world [bob] [acme false] [member "ou-1" bob (acme false) Invited].

(** A super-administrator and an organization it is no member of. *)
Definition rootWorld : World := world [root] [acme false] [].

Definition commonPageRequest (email : string) : SSOResponse :=
  mkSSOResponse email None.

End Examples.

(* ================================================================== *)
(** * The domain policy in the words of the specification *)
(* ================================================================== *)

(** Whether character [c] occurs in [s]. *)
Fixpoint occurs (c : ascii) (s : string) : bool :=
  match s with
  | EmptyString => false
  | String a s' => Ascii.eqb a c || occurs c s'
  end.

(** The part of [s] after the last [c]; all of [s] when [c] does not
    occur in it. *)
Fixpoint afterLast (c : ascii) (s : string) : string :=
  match s with
  | EmptyString => EmptyString
  | String a s' =>
      if occurs c s' then afterLast c s'
      else if Ascii.eqb a c then s'
      else s
  end.

(** The domain of an email: the substring after its last '@'. *)
Definition domainOf (email : string) : string := afterLast "@" email.

(** The entries of an allow-list: split at the commas, trimmed, the
    empty ones removed. *)
Definition allowList (csv : string) : list string :=
  filter JS.nonEmpty (map JS.trim (JS.split "," csv)).

Definition allWhiteSpace (s : string) : Prop :=
  forall a, In a (list_ascii_of_string s) -> JS.isWhiteSpace a = true.

(* ================================================================== *)
(** * Definitions for the further properties *)
(* ================================================================== *)

(** A computation that moves the world only along relation [R], whatever
    its outcome. *)
Definition movesBy {A} (R : World -> World -> Prop) (m : M A) : Prop :=
  forall w res w', m w = (res, w') -> R w w'.

(** The provider calls are the same. *)
Definition sameExchanges (w w' : World) : Prop :=
  exchanges w' = exchanges w.

(** The store the organization selection of lines 295-323 reads: the
    one lines 291-292 leave when the user has a pending invitation token,
    else the store as it was. *)
Definition selectionStore (u : User) (s : Store) : Store :=
  if JS.truthy (user_invitationToken u) then
    mapOrganizationUsers
      (organizationUsersService.activateRow (user_defaultOrganizationId u))
      (mapUsers (usersService.clearInvitationToken (user_id u)) s)
  else s.

(** The part of [s] before the first [c]; all of [s] when [c] does not
    occur in it. *)
Fixpoint beforeFirst (c : ascii) (s : string) : string :=
  match s with
  | EmptyString => EmptyString
  | String a s' =>
      if Ascii.eqb a c then EmptyString else String a (beforeFirst c s')
  end.

(** The store after the direct login of a member whose membership
    [organizationUser] the lookup found first: that row is active, every
    other row and table is as it was. *)
Definition memberLoginStore (organizationUser : OrganizationUser)
    (s : Store) : Store :=
  if MembershipStatus_eqb (ou_status organizationUser) Active then s
  else
    mapOrganizationUsers
      (organizationUsersService.activateRow
         (Some (ou_id organizationUser))) s.

(** List [l'] is list [l], each element kept up to [K], followed by new
    elements: nothing is removed and nothing is reordered. *)
Definition extendsBy {A} (K : A -> A -> Prop) (l l' : list A) : Prop :=
  exists kept extra, l' = kept ++ extra /\ Forall2 K l kept.

(** A user row is kept: every column but the invitation token is the
    same, and the token is the same or cleared. *)
Definition userKept (u u' : User) : Prop :=
  user_id u' = user_id u
  /\ user_email u' = user_email u
  /\ user_firstName u' = user_firstName u
  /\ user_lastName u' = user_lastName u
  /\ user_status u' = user_status u
  /\ user_defaultOrganizationId u' = user_defaultOrganizationId u
  /\ user_superAdmin u' = user_superAdmin u
  /\ (user_invitationToken u' = user_invitationToken u
      \/ user_invitationToken u' = None).

(** A membership row is kept: it links the same user and organization
    under the same id, and its status is the same or has become active. *)
Definition rowKept (m m' : OrganizationUser) : Prop :=
  ou_id m' = ou_id m
  /\ ou_userId m' = ou_userId m
  /\ ou_organizationId m' = ou_organizationId m
  /\ (ou_status m' = ou_status m \/ ou_status m' = Active).

(** Store [s'] holds all that store [s] held. *)
Definition evolves (s s' : Store) : Prop :=
  extendsBy userKept (users s) (users s')
  /\ extendsBy eq (organizations s) (organizations s')
  /\ extendsBy rowKept (organizationUsers s) (organizationUsers s').

Definition evolvesW (w w' : World) : Prop := evolves (db w) (db w').

(** Further concrete collaborators and stores. *)
Module Scenarios.

Import Examples.

(** A multi-workspace instance without the OIDC license. *)
Definition unlicensed : Env :=
  mkEnv nothing false nothing provider provider
    (fun token configs _ _ => provider token configs)
    unlimited (fun _ => "signed") (fun _ _ _ => []) (fun _ _ _ => []).

(** A provider that returns an identity without subject id. *)
Definition anonymous : Env :=
  mkEnv nothing true nothing
    (fun token _ => Ok (mkUserResponse None (Some token) None None))
    provider (fun token configs _ _ => provider token configs)
    unlimited (fun _ => "signed") (fun _ _ _ => []) (fun _ _ _ => []).


(** A super-administrator in a system without any organization. *)
Definition rootAlone : World := world [root] [] [].

(** Bob's membership in acme, invited. *)
Definition bobRow : OrganizationUser := member "ou-1" bob (acme false) Invited.

End Scenarios.

(* ================================================================== *)
(** * Part 4: properties *)
(* ================================================================== *)

(** ** The monad *)

Lemma bind_Ok {A B} (m : M A) (k : A -> M B) w a w' :
  m w = (Ok a, w') -> bind m k w = k a w'.
Proof. intros H. unfold bind. now rewrite H. Qed.

Lemma bind_Throw {A B} (m : M A) (k : A -> M B) w e w' :
  m w = (Throw e, w') -> bind m k w = (Throw e, w').
Proof. intros H. unfold bind. now rewrite H. Qed.

Lemma bind_inv_Ok {A B} (m : M A) (k : A -> M B) w b w2 :
  bind m k w = (Ok b, w2) ->
  exists a w1, m w = (Ok a, w1) /\ k a w1 = (Ok b, w2).
Proof.
  unfold bind. destruct (m w) as [[a|e] w1]; intros H.
  - now exists a, w1.
  - discriminate.
Qed.


Lemma dbTransactionWrap_Ok {A} (m : M A) w a w' :
  m w = (Ok a, w') -> dbTransactionWrap m w = (Ok a, w').
Proof. intros H. unfold dbTransactionWrap. now rewrite H. Qed.

Lemma dbTransactionWrap_Throw {A} (m : M A) w e w' :
  m w = (Throw e, w') ->
  dbTransactionWrap m w = (Throw e, mkWorld (db w) (exchanges w')).
Proof. intros H. unfold dbTransactionWrap. now rewrite H. Qed.

(** ** Tenant resolution *)

Lemma resolveTenant_world env r configId ssoType w res w' :
  resolveTenant env r configId ssoType w = (res, w') -> w' = w.
Proof.
  unfold resolveTenant, bind, query, ret, throw.
  destruct (JS.truthy configId); [intros H; now inversion H|].
  destruct (negb (isSingleOrganization env) && JS.truthy ssoType
            && JS.truthy (organizationId r)); [intros H; now inversion H|].
  destruct (negb (isSingleOrganization env) && JS.truthy ssoType);
    intros H; now inversion H.
Qed.

(** C6.  Tenant resolution: of the three modes at most one applies to a
    request; when one does, [resolveTenant] resolves by exactly that mode,
    explicit config first, then instance SSO with a known organization,
    then instance SSO from the common page; when none does it throws
    Unauthorized; and whenever the organization or the config is absent
    after resolution, [signIn] throws Unauthorized with no provider
    exchange made and nothing written. *)
Theorem signIn_tenant_resolution env r configId ssoType cookies w :
  match filter (applies env r configId ssoType)
          [ExplicitConfig; InstanceSSOKnownOrganization;
           InstanceSSOCommonPage] with
  | [m] =>
      resolveTenant env r configId ssoType w
      = (Ok (resolveBy env r configId ssoType (db w) m), w)
  | [] =>
      resolveTenant env r configId ssoType w
      = (Throw (UnauthorizedException None), w)
  | _ :: _ :: _ => False
  end
  /\ match resolveTenant env r configId ssoType w with
     | (Ok (Some _, Some _), _) => True
     | _ =>
         signIn env r configId ssoType cookies w
         = (Throw (UnauthorizedException None), w)
     end.
Proof.
  split.
  - unfold resolveTenant, resolveBy, applies, bind, query, ret, throw; simpl.
    destruct (JS.truthy configId); simpl.
    + rewrite !andb_false_r; simpl.
      now destruct (organizationService.getConfigs (db w) configId)
        as [[c o]|].
    + rewrite !andb_true_r.
      destruct (negb (isSingleOrganization env)); simpl; [|reflexivity].
      destruct (JS.truthy ssoType); simpl; [|reflexivity].
      destruct (JS.truthy (organizationId r)); simpl; [|reflexivity].
      now destruct (organizationService.fetchOrganizationDetails (db w)
                      (organizationId r)).
  - destruct (resolveTenant env r configId ssoType w) as [res w'] eqn:E.
    pose proof (resolveTenant_world _ _ _ _ _ _ _ E) as ->.
    unfold signIn.
    destruct res as [[[c|] [o|]]|e]; try exact I;
      (erewrite bind_Ok by exact E) || (erewrite bind_Throw by exact E);
      try reflexivity.
    (* a failed resolution is Unauthorized *)
    revert E. unfold resolveTenant, bind, query, ret, throw.
    destruct (JS.truthy configId); [discriminate|].
    destruct (negb (isSingleOrganization env) && JS.truthy ssoType
              && JS.truthy (organizationId r)); [discriminate|].
    destruct (negb (isSingleOrganization env) && JS.truthy ssoType);
      [discriminate|].
    intros H; now inversion H.
Qed.

(** ** Domain policy *)

Example isValidDomain_acme :
  isValidDomain (Some "user@acme.com") (Some "acme.com") = true
  /\ isValidDomain (Some "user@other.com") (Some "acme.com") = false
  /\ isValidDomain (Some "user@b.org") (Some "acme.com, b.org ,,") = true
  /\ isValidDomain (Some "a@x@b.org") (Some " b.org") = true
  /\ isValidDomain (Some "user@ACME.com") (Some "acme.com") = false
  /\ isValidDomain (Some "acme.com") (Some "acme.com") = true.
Proof. repeat split; reflexivity. Qed.


(** ** What the phases of [signIn] leave unchanged *)

Lemma exchangeIdentity_db env sso configs token configId cookies w res w' :
  exchangeIdentity env sso configs token configId cookies w = (res, w') ->
  db w' = db w.
Proof.
  unfold exchangeIdentity, exchange, bind, ret, throw.
  repeat match goal with
         | |- context [if ?b then _ else _] => destruct b
         | |- context [match ?x with Ok _ => _ | Throw _ => _ end] =>
             destruct x
         | |- context [match ?x with Some _ => _ | None => _ end] =>
             destruct x
         end;
    intros H; inversion H; reflexivity.
Qed.

Lemma checkEligibility_world env userResponse domain w res w' :
  checkEligibility env userResponse domain w = (res, w') -> w' = w.
Proof.
  unfold checkEligibility, bind, query, ret, throw.
  destruct userResponse as [ur|]; [|intros H; now inversion H].
  repeat match goal with
         | |- context [if ?b then _ else _] => destruct b
         end;
    intros H; inversion H; reflexivity.
Qed.

Lemma generateLoginResultPayload_world env user organization isInstanceSSO w :
  exists p,
    generateLoginResultPayload env user organization isInstanceSSO w
    = (Ok p, w)
    /\ Payload.id p = user_id user
    /\ Payload.organization_id p = org_id organization
    /\ Payload.super_admin p = user_superAdmin user.
Proof.
  unfold generateLoginResultPayload, query. eexists. split; [reflexivity|].
  simpl. auto.
Qed.

Lemma signIn_resolved env r configId ssoType cookies w c o :
  resolveTenant env r configId ssoType w = (Ok (Some c, Some o), w) ->
  signIn env r configId ssoType cookies w
  = signInResolved env r configId ssoType cookies c o w.
Proof.
  intros H. unfold signIn. erewrite bind_Ok by exact H. reflexivity.
Qed.

(** ** Provider tags *)

(** C9.  When the resolved SSO config carries a provider tag other than
    google, git and openid, [signIn] issues no session: it fails with the
    runtime's TypeError, raised on reading [userSSOId] of the undefined
    [userResponse], which is neither Unauthorized nor NotAcceptable; no
    provider was called and nothing was written. *)
Theorem signIn_unknown_provider_tag env r configId ssoType cookies w c o :
  resolveTenant env r configId ssoType w = (Ok (Some c, Some o), w) ->
  JS.isLiteral (sso c) "google" = false ->
  JS.isLiteral (sso c) "git" = false ->
  JS.isLiteral (sso c) "openid" = false ->
  exists e,
    signIn env r configId ssoType cookies w = (Throw e, w)
    /\ e = TypeError
             "Cannot read properties of undefined (reading 'userSSOId')"
    /\ isUnauthorized e = false
    /\ isNotAcceptable e = false.
Proof.
  intros Hres Hgoogle Hgit Hoidc.
  eexists. split; [|repeat split].
  rewrite (signIn_resolved _ _ _ _ _ _ _ _ Hres).
  unfold signInResolved, exchangeIdentity.
  rewrite Hgoogle, Hgit, Hoidc.
  reflexivity.
Qed.

(** ** Archived users *)

(** C8.  Whatever way the tenant was resolved, when the provider returned
    an identity with a subject id and an email and that email is the email
    of an archived user, [signIn] fails with NotAcceptable, whatever the
    allow-list says about the domain; nothing is written. *)
Theorem signIn_archived_user env r configId ssoType cookies w c o ur w1 u l :
  resolveTenant env r configId ssoType w = (Ok (Some c, Some o), w) ->
  exchangeIdentity env (sso c) (sso_configs c) (token r) configId cookies w
  = (Ok (Some ur), w1) ->
  JS.truthy (userSSOId ur) = true ->
  JS.truthy (email ur) = true ->
  usersService.findByEmail (db w) (email ur) None [] = Some (u, l) ->
  user_status u = UserArchived ->
  signIn env r configId ssoType cookies w
  = (Throw (NotAcceptableException
              "User has been removed from the system, please contact the administrator"),
     w1)
  /\ db w1 = db w.
Proof.
  intros Hres Hex Hid Hemail Hfind Harch.
  pose proof (exchangeIdentity_db _ _ _ _ _ _ _ _ _ Hex) as Hdb.
  split; [|exact Hdb].
  rewrite (signIn_resolved _ _ _ _ _ _ _ _ Hres).
  unfold signInResolved.
  erewrite bind_Ok by exact Hex.
  apply bind_Throw.
  unfold checkEligibility, bind, query, throw.
  rewrite Hid, Hemail. cbn [negb andb]. rewrite Hdb, Hfind.
  cbn [option_map fst]. rewrite Harch. reflexivity.
Qed.

Lemma checkEligibility_Ok env ur domain w el w' :
  checkEligibility env (Some ur) domain w = (Ok el, w') ->
  email (el_userResponse el) = email ur
  /\ lastName (el_userResponse el) = lastName ur
  /\ el_userDetails el
     = option_map fst (usersService.findByEmail (db w) (email ur) None [])
  /\ JS.truthy (email ur) = true.
Proof.
  unfold checkEligibility, bind, query, ret, throw.
  destruct (JS.truthy (userSSOId ur)); [|discriminate].
  destruct (JS.truthy (email ur)); [|discriminate].
  cbn [negb andb].
  repeat match goal with
         | |- context [if ?b then _ else _] => destruct b
         end;
    intros H; inversion H; subst; cbn; auto.
Qed.

(** ** Direct login with sign-up disabled *)

(** C7.  A direct-to-organization sign-in (the branch of line 324) that
    passed the eligibility checks, into an organization with
    [enableSignUp = false], by an identity whose email has no active or
    invited membership in that organization: [signIn] throws Unauthorized
    and the database is as it was, no row created. *)
Theorem signIn_signup_disabled_no_membership
    env r configId ssoType cookies w c o ur w1 el :
  resolveTenant env r configId ssoType w = (Ok (Some c, Some o), w) ->
  commonPage env r configId ssoType = false ->
  enableSignUp o = false ->
  exchangeIdentity env (sso c) (sso_configs c) (token r) configId cookies w
  = (Ok (Some ur), w1) ->
  checkEligibility env (Some ur) (domain o) w1 = (Ok el, w1) ->
  usersService.findByEmail (db w) (email ur) (org_id o) [Active; Invited]
  = None ->
  signIn env r configId ssoType cookies w
  = (Throw (UnauthorizedException
              (Some "User does not exist in the workspace")), w1)
  /\ db w1 = db w.
Proof.
  intros Hres Hdirect Hsignup Hex Hel Hnone.
  pose proof (exchangeIdentity_db _ _ _ _ _ _ _ _ _ Hex) as Hdb.
  destruct (checkEligibility_Ok _ _ _ _ _ _ Hel) as (Hemail & _).
  split; [|exact Hdb].
  rewrite (signIn_resolved _ _ _ _ _ _ _ _ Hres).
  unfold signInResolved.
  erewrite bind_Ok by exact Hex.
  erewrite bind_Ok by exact Hel.
  apply bind_Throw.
  replace w1 with (mkWorld (db w1) (exchanges w1)) at 2 by now destruct w1.
  apply dbTransactionWrap_Throw.
  unfold provision. apply bind_Throw.
  unfold provisionUserAndOrganization.
  fold (commonPage env r configId ssoType). rewrite Hdirect, Hsignup.
  cbn [negb]. apply bind_Throw.
  unfold findAndActivateUser, bind, query, throw.
  rewrite Hemail, Hdb, Hnone. reflexivity.
Qed.

(** ** Atomicity *)



(** C2.  The license validation is the last step of the operation that
    [dbTransactionWrap] runs, after the provisioning writes and on the
    store that holds them.  So when the branches of lines 260-335 have
    succeeded, whatever user, organization or membership they created,
    and the license check then fails on that store, [signIn] fails with
    the license error and the database is the one the request found:
    none of the records persist. *)
Theorem signIn_license_failure_rolls_back
    env r configId ssoType cookies w c o ur w1 el res w2 e :
  resolveTenant env r configId ssoType w = (Ok (Some c, Some o), w) ->
  exchangeIdentity env (sso c) (sso_configs c) (token r) configId cookies w
  = (Ok ur, w1) ->
  checkEligibility env ur (domain o) w1 = (Ok el, w1) ->
  provisionUserAndOrganization env o (organizationId r)
    (negb (JS.truthy configId) && JS.truthy ssoType) el w1
  = (Ok res, w2) ->
  licenseViolation env (db w2) = Some e ->
  signIn env r configId ssoType cookies w
  = (Throw e, mkWorld (db w) (exchanges w2)).
Proof.
  intros Hres Hex Hel Hprov Hlic.
  pose proof (exchangeIdentity_db _ _ _ _ _ _ _ _ _ Hex) as Hdb.
  rewrite (signIn_resolved _ _ _ _ _ _ _ _ Hres).
  unfold signInResolved.
  erewrite bind_Ok by exact Hex.
  erewrite bind_Ok by exact Hel.
  apply bind_Throw. rewrite <- Hdb.
  apply dbTransactionWrap_Throw.
  unfold provision. erewrite bind_Ok by exact Hprov.
  apply bind_Throw. unfold usersService.validateLicense.
  now rewrite Hlic.
Qed.

(** ** Find-or-create on the direct login path *)

Lemma statuses_all (st : MembershipStatus) :
  existsb (MembershipStatus_eqb st) [Active; Invited] = true.
Proof. now destruct st. Qed.

Lemma findByEmail_unscoped s e :
  usersService.findByEmail s e None []
  = option_map (fun u => (u, []))
      (find (fun u => JS.strictEq (Some (user_email u)) e) (users s)).
Proof. reflexivity. Qed.

Lemma truthy_Some v :
  JS.truthy v = true -> exists i, v = Some i /\ JS.nonEmpty i = true.
Proof. destruct v as [i|]; [|discriminate]. intros H. now exists i. Qed.

(** An email without a membership in the organization: the user it
    belongs to, if there is one, is not a member of it. *)
Lemma findByEmail_None_not_member s e organizationId u0 l :
  JS.truthy organizationId = true ->
  usersService.findByEmail s e organizationId [Active; Invited] = None ->
  usersService.findByEmail s e None [] = Some (u0, l) ->
  usersService.isMemberOf s u0 organizationId = false.
Proof.
  intros Hid Hnone Hsome.
  apply truthy_Some in Hid as (i & -> & Hi).
  unfold usersService.findByEmail in Hnone. rewrite Hi in Hnone.
  rewrite findByEmail_unscoped in Hsome.
  destruct (find (fun u => JS.strictEq (Some (user_email u)) e) (users s))
    as [u|] eqn:Hfind; [|discriminate].
  inversion Hsome; subst u0 l; clear Hsome.
  apply find_some in Hfind as [Hin Heq].
  destruct (find _ (users s)) as [x|] eqn:Hscoped in Hnone; [discriminate|].
  pose proof (find_none _ _ Hscoped u Hin) as Hu. cbv beta in Hu.
  rewrite Heq in Hu. cbn [andb] in Hu.
  apply negb_false_iff, Nat.eqb_eq in Hu.
  apply length_zero_iff_nil in Hu.
  unfold usersService.isMemberOf.
  apply not_true_is_false. intros Hex.
  apply existsb_exists in Hex as (m & Hm & Hcond).
  assert (Hflt : In m (usersService.membershipsIn s (user_id u) i
                         [Active; Invited])).
  { unfold usersService.membershipsIn. apply filter_In. split; [exact Hm|].
    rewrite Hcond, statuses_all. reflexivity. }
  rewrite Hu in Hflt. exact Hflt.
Qed.

(** A scoped lookup that finds a user returns at least one membership, a
    row of the table, of that user in that organization. *)
Lemma findByEmail_Some_membership s e organizationId st u l :
  JS.truthy organizationId = true ->
  usersService.findByEmail s e organizationId st = Some (u, l) ->
  exists m rest,
    l = m :: rest
    /\ In m (organizationUsers s)
    /\ ou_userId m = user_id u
    /\ ou_organizationId m = organizationId.
Proof.
  intros Hid Hsome.
  apply truthy_Some in Hid as (i & -> & Hi).
  unfold usersService.findByEmail in Hsome. rewrite Hi in Hsome.
  destruct (find _ (users s)) as [x|] eqn:Hscoped in Hsome; [|discriminate].
  inversion Hsome; subst x l; clear Hsome.
  apply find_some in Hscoped as [_ Hx].
  apply andb_prop in Hx as [_ Hlen].
  destruct (usersService.membershipsIn s (user_id u) i st) as [|m rest] eqn:Hl;
    [discriminate|].
  exists m, rest. split; [reflexivity|].
  assert (Hm : In m (usersService.membershipsIn s (user_id u) i st))
    by (rewrite Hl; now left).
  unfold usersService.membershipsIn in Hm.
  apply filter_In in Hm as [Hin Hc].
  apply andb_prop in Hc as [Hc _]. apply andb_prop in Hc as [Hu Ho].
  apply String.eqb_eq in Hu.
  split; [exact Hin|]. split; [exact Hu|].
  destruct (ou_organizationId m) as [x|]; [|discriminate].
  apply String.eqb_eq in Ho. now subst.
Qed.

Lemma activateRow_self m :
  organizationUsersService.activateRow (Some (ou_id m)) m
  = mkOrganizationUser (ou_id m) (ou_userId m) (ou_organizationId m) Active.
Proof.
  unfold organizationUsersService.activateRow. cbn [JS.strictEq].
  now rewrite String.eqb_refl.
Qed.

(** [findOrCreateUser] on an organization of the store, case by case.  When the
    email has no membership in the organization, it creates exactly one
    membership there, of the returned user, inactive, and it creates the
    user record first only when no user with that email exists anywhere.
    When a membership exists, no row is created and that membership is
    active afterwards: it is activated when its status was not active. *)
Lemma findOrCreateUser_cases ur org w :
  JS.truthy (org_id org) = true ->
  match usersService.findByEmail (db w) (email ur) (org_id org)
          [Active; Invited] with
  | None =>
      exists user m w',
        findOrCreateUser ur org w = (Ok user, w')
        /\ organizationUsers (db w') = organizationUsers (db w) ++ [m]
        /\ ou_userId m = user_id user
        /\ ou_organizationId m = org_id org
        /\ ou_status m = Invited
        /\ match usersService.findByEmail (db w) (email ur) None [] with
           | Some (u0, _) => user = u0 /\ users (db w') = users (db w)
           | None =>
               users (db w') = users (db w) ++ [user]
               /\ forall e, email ur = Some e -> user_email user = e
           end
  | Some (existingUser, organizationUser :: _) =>
      exists w',
        findOrCreateUser ur org w = (Ok existingUser, w')
        /\ users (db w') = users (db w)
        /\ organizationUsers (db w')
           = (if MembershipStatus_eqb (ou_status organizationUser) Active
              then organizationUsers (db w)
              else map (organizationUsersService.activateRow
                          (Some (ou_id organizationUser)))
                     (organizationUsers (db w)))
        /\ In (mkOrganizationUser (ou_id organizationUser)
                 (ou_userId organizationUser)
                 (ou_organizationId organizationUser) Active)
             (organizationUsers (db w'))
  | Some (_, []) => False
  end.
Proof.
  intros Hid.
  destruct (usersService.findByEmail (db w) (email ur) (org_id org)
              [Active; Invited]) as [[existingUser l]|] eqn:Hscoped.
  - destruct (findByEmail_Some_membership _ _ _ _ _ _ Hid Hscoped)
      as (m & rest & -> & Hin & _ & _).
    unfold findOrCreateUser, bind, query. rewrite Hscoped.
    cbn [hd_error].
    destruct (ou_status m) eqn:Hst; cbn [MembershipStatus_eqb negb when].
    + eexists. split; [reflexivity|]. cbn. split; [reflexivity|].
      split; [reflexivity|].
      rewrite <- (activateRow_self m). now apply in_map.
    + eexists. split; [reflexivity|]. cbn. split; [reflexivity|].
      split; [reflexivity|].
      destruct m; cbn in *. now subst.
  - unfold findOrCreateUser, bind, query. rewrite Hscoped.
    unfold usersService.findOrCreateByEmail, bind, query. cbn [email].
    destruct (usersService.findByEmail (db w) (email ur) None [])
      as [[u0 l]|] eqn:Hany.
    + rewrite (findByEmail_None_not_member _ _ _ _ _ Hid Hscoped Hany).
      do 3 eexists. split; [reflexivity|]. cbn.
      repeat split; reflexivity.
    + do 3 eexists. split; [reflexivity|]. cbn.
      repeat split; try reflexivity.
      intros e He. now rewrite He.
Qed.

(** ** Organization selection on the common login page *)

Lemma selectOrganization_candidates u allow w first rest :
  candidateOrganizations (db w) u = first :: rest ->
  selectOrganization u allow w = (Ok (preferred u first rest), w).
Proof.
  unfold candidateOrganizations, selectOrganization, preferred, bind, query.
  destruct (isSuperAdmin (Some u)); cbn [negb].
  - destruct (organizationService.findOne (db w)
                (user_defaultOrganizationId u)) as [o|].
    + intros H; inversion H; subst. unfold ret.
      now destruct (find _ [first]).
    + destruct (organizationService.getSingleOrganization (db w)) as [o|];
        [|discriminate].
      intros H; inversion H; subst. unfold ret.
      now destruct (find _ [first]).
  - intros ->. unfold ret. now destruct (find _ (first :: rest)).
Qed.

(** C10.  On the common login page, for an existing user with no pending
    invitation token and a non-empty list of candidate organizations,
    [signIn] writes nothing: the database after the call is the database
    before it.  The flow selects the user's default organization if it is
    among the candidates, else the first candidate, and, the license
    check passing, returns the session payload of the user for that
    organization. *)
Theorem signIn_common_page_selection_writes_nothing
    env r configId ssoType cookies w c o ur w1 el u first rest :
  resolveTenant env r configId ssoType w = (Ok (Some c, Some o), w) ->
  commonPage env r configId ssoType = true ->
  exchangeIdentity env (sso c) (sso_configs c) (token r) configId cookies w
  = (Ok ur, w1) ->
  checkEligibility env ur (domain o) w1 = (Ok el, w1) ->
  el_userDetails el = Some u ->
  JS.truthy (user_invitationToken u) = false ->
  candidateOrganizations (db w) u = first :: rest ->
  db w1 = db w
  /\ signIn env r configId ssoType cookies w
     = match licenseViolation env (db w) with
       | Some e => (Throw e, w1)
       | None =>
           generateLoginResultPayload env u (preferred u first rest) true w1
       end.
Proof.
  intros Hres Hpage Hex Hel Hu Htoken Hcand.
  pose proof (exchangeIdentity_db _ _ _ _ _ _ _ _ _ Hex) as Hdb.
  split; [exact Hdb|].
  rewrite (signIn_resolved _ _ _ _ _ _ _ _ Hres).
  unfold signInResolved.
  erewrite bind_Ok by exact Hex.
  erewrite bind_Ok by exact Hel.
  assert (Hsso : negb (JS.truthy configId) && JS.truthy ssoType = true).
  { unfold commonPage in Hpage.
    apply andb_prop in Hpage as [Hpage _].
    now apply andb_prop in Hpage as [_ Hpage]. }
  assert (Hprov :
    provisionUserAndOrganization env o (organizationId r)
      (negb (JS.truthy configId) && JS.truthy ssoType) el w1
    = (Ok (u, preferred u first rest), w1)).
  { unfold provisionUserAndOrganization. fold (commonPage env r configId ssoType).
    rewrite Hpage, Hu, Htoken. cbn [when].
    unfold bind at 1. unfold ret at 1.
    erewrite bind_Ok
      by (apply selectOrganization_candidates; rewrite Hdb; exact Hcand).
    reflexivity. }
  unfold provision, usersService.validateLicense.
  rewrite <- Hdb.
  destruct (licenseViolation env (db w1)) as [e|] eqn:Hlic.
  - apply bind_Throw.
    replace w1 with (mkWorld (db w1) (exchanges w1)) at 2 by now destruct w1.
    apply dbTransactionWrap_Throw.
    erewrite bind_Ok by exact Hprov.
    apply bind_Throw. now rewrite Hlic.
  - erewrite bind_Ok.
    2:{ apply dbTransactionWrap_Ok.
        erewrite bind_Ok by exact Hprov.
        erewrite bind_Ok by (now rewrite Hlic).
        reflexivity. }
    cbv beta iota. rewrite Hsso. reflexivity.
Qed.

(** C3.  On the direct login path with sign-up allowed, for an
    organization of the store: when no membership exists for the
    identity's email in the organization, [findOrCreateUser] creates one
    new inactive membership there for the user it returns, and it creates
    the user record first only when no user with that email exists
    anywhere; when a membership exists, none is created and that
    membership is active afterwards, activated if its status was not
    active. *)
Theorem findOrCreateUser_spec ur org w :
  JS.truthy (org_id org) = true ->
  match usersService.findByEmail (db w) (email ur) (org_id org)
          [Active; Invited] with
  | None =>
      exists user m w',
        findOrCreateUser ur org w = (Ok user, w')
        /\ organizationUsers (db w') = organizationUsers (db w) ++ [m]
        /\ ou_userId m = user_id user
        /\ ou_organizationId m = org_id org
        /\ ou_status m = Invited
        /\ match usersService.findByEmail (db w) (email ur) None [] with
           | Some (u0, _) => user = u0 /\ users (db w') = users (db w)
           | None =>
               users (db w') = users (db w) ++ [user]
               /\ forall e, email ur = Some e -> user_email user = e
           end
  | Some (existingUser, organizationUser :: _) =>
      exists w',
        findOrCreateUser ur org w = (Ok existingUser, w')
        /\ users (db w') = users (db w)
        /\ organizationUsers (db w')
           = (if MembershipStatus_eqb (ou_status organizationUser) Active
              then organizationUsers (db w)
              else map (organizationUsersService.activateRow
                          (Some (ou_id organizationUser)))
                     (organizationUsers (db w)))
        /\ In (mkOrganizationUser (ou_id organizationUser)
                 (ou_userId organizationUser)
                 (ou_organizationId organizationUser) Active)
             (organizationUsers (db w'))
  | Some (_, []) => False
  end.
Proof. exact (findOrCreateUser_cases ur org w). Qed.

(** ** The membership behind a session *)

Lemma strictEq_eq a b : JS.strictEq a b = true -> a = b.
Proof.
  destruct a as [x|], b as [y|]; try discriminate.
  cbn. intros H. apply String.eqb_eq in H. now subst.
Qed.

Lemma hasActiveMembership_In s u o :
  organizationService.hasActiveMembership s u o = true ->
  exists m,
    In m (organizationUsers s)
    /\ ou_userId m = user_id u
    /\ ou_organizationId m = org_id o
    /\ ou_status m = Active.
Proof.
  unfold organizationService.hasActiveMembership. intros H.
  apply existsb_exists in H as (m & Hin & Hc).
  apply andb_prop in Hc as [Hc Hst]. apply andb_prop in Hc as [Hu Ho].
  exists m. split; [exact Hin|].
  split; [now apply String.eqb_eq|].
  split; [now apply strictEq_eq|].
  now destruct (ou_status m).
Qed.

Lemma selectOrganization_linked u allow w og w' :
  selectOrganization u allow w = (Ok og, w') ->
  isSuperAdmin (Some u) = false ->
  linkedSince (length (organizationUsers (db w))) (db w') u og.
Proof.
  unfold selectOrganization. intros H Hsuper. rewrite Hsuper in H.
  cbn [negb] in H. unfold bind at 1, query at 1 in H.
  set (l := organizationService.findOrganizationWithLoginSupport (db w) u)
    in H.
  assert (Hl : forall x, In x l ->
                 organizationService.hasActiveMembership (db w) u x = true).
  { intros x Hx. unfold l, organizationService.findOrganizationWithLoginSupport
      in Hx. apply filter_In in Hx as [_ Hx]. now apply andb_prop in Hx. }
  destruct (find _ l) as [d|] eqn:Hfind.
  - inversion H; subst og w'. apply find_some in Hfind as [Hin _].
    destruct (hasActiveMembership_In _ _ _ (Hl d Hin)) as (m & ? & ? & ? & ?).
    exists m. auto.
  - destruct l as [|first rest].
    + destruct allow; [|discriminate].
      unfold organizationService.create, organizationUsersService.create,
        freshId, bind, update, ret in H.
      cbn in H. inversion H; subst og w'; clear H. cbn.
      eexists. split; [apply in_or_app; right; now left|].
      split; [reflexivity|]. split; [reflexivity|].
      right. eexists. split; reflexivity.
    + inversion H; subst og w'.
      destruct (hasActiveMembership_In _ _ _ (Hl first (or_introl eq_refl)))
        as (m & ? & ? & ? & ?).
      exists m. auto.
Qed.

Lemma findAndActivateUser_linked e oid w u w' :
  JS.truthy oid = true ->
  findAndActivateUser e oid w = (Ok u, w') ->
  exists m,
    In m (organizationUsers (db w'))
    /\ ou_userId m = user_id u
    /\ ou_organizationId m = oid
    /\ ou_status m = Active.
Proof.
  intros Hid. unfold findAndActivateUser, bind, query.
  destruct (usersService.findByEmail (db w) e oid [Active; Invited])
    as [[u0 l]|] eqn:Hfind; [|discriminate].
  destruct (findByEmail_Some_membership _ _ _ _ _ _ Hid Hfind)
    as (m & rest & -> & Hin & Hu & Ho).
  cbn [hd_error].
  destruct (ou_status m) eqn:Hst; cbn [MembershipStatus_eqb negb when];
    unfold organizationUsersService.activate, update, ret;
    intros H; inversion H; subst u w'; clear H; cbn.
  - exists (mkOrganizationUser (ou_id m) (ou_userId m) (ou_organizationId m)
              Active).
    split; [rewrite <- (activateRow_self m); now apply in_map|].
    cbn. auto.
  - exists m. auto.
Qed.

Lemma findOrCreateUser_linked ur org w u w' :
  JS.truthy (org_id org) = true ->
  findOrCreateUser ur org w = (Ok u, w') ->
  linkedSince (length (organizationUsers (db w))) (db w') u org.
Proof.
  intros Hid H.
  pose proof (findOrCreateUser_cases ur org w Hid) as Hc.
  destruct (usersService.findByEmail (db w) (email ur) (org_id org)
              [Active; Invited]) as [[existingUser [|m rest]]|] eqn:Hscoped.
  - contradiction.
  - destruct Hc as (w1 & Heq & _ & _ & Hin).
    rewrite Heq in H. inversion H; subst u w'; clear H.
    destruct (findByEmail_Some_membership _ _ _ _ _ _ Hid Hscoped)
      as (m' & rest' & Hl & _ & Hu & Ho).
    inversion Hl; subst m' rest'.
    eexists. split; [exact Hin|]. cbn. auto.
  - destruct Hc as (user & m & w1 & Heq & Htab & Hu & Ho & _).
    rewrite Heq in H. inversion H; subst u w'; clear H.
    exists m. split; [rewrite Htab; apply in_or_app; right; now left|].
    split; [exact Hu|]. split; [exact Ho|].
    right. now exists (organizationUsers (db w)).
Qed.

Lemma findConfig_In configId orgs c o :
  organizationService.findConfig configId orgs = Some (c, o) -> In o orgs.
Proof.
  induction orgs as [|x rest IH]; cbn; [discriminate|].
  destruct (find _ (ssoConfigs x)).
  - intros H; inversion H; now left.
  - intros H; right; now apply IH.
Qed.

(** Off the common login page, the organization the tenant resolves to
    is an organization of the store and has an identifier. *)
Lemma resolveTenant_direct_id env r configId ssoType w c o w' :
  organizationsHaveIds (db w) = true ->
  resolveTenant env r configId ssoType w = (Ok (Some c, Some o), w') ->
  commonPage env r configId ssoType = false ->
  JS.truthy (org_id o) = true.
Proof.
  intros Hids. unfold organizationsHaveIds in Hids.
  rewrite forallb_forall in Hids.
  unfold resolveTenant, commonPage, bind, query, ret, throw.
  destruct (JS.truthy configId) eqn:Hc.
  - intros H _.
    destruct (organizationService.getConfigs (db w) configId) as [[c' o']|]
      eqn:Hget; [|discriminate].
    cbn in H. inversion H; subst. apply Hids.
    exact (findConfig_In _ _ _ _ Hget).
  - cbn [negb andb].
    destruct (negb (isSingleOrganization env) && JS.truthy ssoType) eqn:Hm;
      cbn [andb].
    + destruct (JS.truthy (organizationId r)) eqn:Ho; [|discriminate].
      intros H _.
      destruct (organizationService.fetchOrganizationDetails (db w)
                  (organizationId r)) as [o'|] eqn:Hf; [|discriminate].
      inversion H; subst.
      apply find_some in Hf as [_ Hf].
      unfold organizationService.hasId in Hf.
      apply strictEq_eq in Hf. now rewrite Hf.
    + destruct (negb (isSingleOrganization env) && JS.truthy ssoType
                && JS.truthy (organizationId r)) eqn:Hx.
      * apply andb_prop in Hx as [Hx _]. congruence.
      * discriminate.
Qed.

Lemma provisionUserAndOrganization_linked
    env o organizationId isInstanceSSOLogin el w u og w' :
  (negb (isSingleOrganization env) && isInstanceSSOLogin
   && negb (JS.truthy organizationId) = false ->
   JS.truthy (org_id o) = true) ->
  provisionUserAndOrganization env o organizationId isInstanceSSOLogin el w
  = (Ok (u, og), w') ->
  negb (isSingleOrganization env) && isInstanceSSOLogin
  && negb (JS.truthy organizationId) && user_superAdmin u = false ->
  linkedSince (length (organizationUsers (db w))) (db w') u og.
Proof.
  intros Hid H Hsuper. unfold provisionUserAndOrganization in H.
  destruct (negb (isSingleOrganization env) && isInstanceSSOLogin
            && negb (JS.truthy organizationId)) eqn:Hpage.
  - cbn [andb] in Hsuper.
    destruct (el_userDetails el) as [ud|].
    + apply bind_inv_Ok in H as ([] & w1 & Hwhen & H).
      apply bind_inv_Ok in H as (og' & w2 & Hsel & H).
      inversion H; subst u og w'; clear H.
      assert (Hlen : length (organizationUsers (db w1))
                     = length (organizationUsers (db w))).
      { revert Hwhen.
        destruct (JS.truthy (user_invitationToken ud)); cbn [when].
        - unfold usersService.updateUser_invitationToken_null,
            organizationUsersService.activate, bind, update.
          intros H; inversion H; subst w1; cbn. apply length_map.
        - unfold ret. intros H; now inversion H. }
      rewrite <- Hlen.
      exact (selectOrganization_linked _ _ _ _ _ Hsel Hsuper).
    + destruct (enableSignUp o && el_allowPersonalWorkspace el);
        [|discriminate].
      unfold organizationService.create, usersService.create,
        organizationUsersService.create, freshId, bind, update, ret in H.
      cbn in H. inversion H; subst u og w'; clear H. cbn.
      eexists. split; [apply in_or_app; right; now left|].
      split; [reflexivity|]. split; [reflexivity|].
      right. eexists. split; reflexivity.
  - specialize (Hid eq_refl).
    apply bind_inv_Ok in H as (u' & w1 & Hfind & H).
    inversion H; subst u og w'; clear H.
    destruct (enableSignUp o); cbn [negb] in Hfind.
    + exact (findOrCreateUser_linked _ _ _ _ _ Hid Hfind).
    + destruct (findAndActivateUser_linked _ _ _ _ _ Hid Hfind)
        as (m & ? & ? & ? & ?).
      exists m. auto.
Qed.

(** C1, as the code has it.  A successful [signIn] returns one session
    payload, for one user and one organization.  Unless the user is a
    super-administrator signing in from the common login page, the store
    then holds a membership of that user in that organization, and the
    membership is active or is the one row this call added to the table:
    the memberships created just in time are inactive and stay so. *)
Theorem signIn_session_membership env r configId ssoType cookies w p w' :
  organizationsHaveIds (db w) = true ->
  signIn env r configId ssoType cookies w = (Ok p, w') ->
  commonPage env r configId ssoType && Payload.super_admin p = false ->
  exists m,
    In m (organizationUsers (db w'))
    /\ ou_userId m = Payload.id p
    /\ ou_organizationId m = Payload.organization_id p
    /\ (ou_status m = Active
        \/ exists l,
             organizationUsers (db w') = l ++ [m]
             /\ length l = length (organizationUsers (db w))).
Proof.
  intros Hids H Hsuper. unfold signIn in H.
  apply bind_inv_Ok in H as ([c o] & w0 & Hres & H).
  pose proof (resolveTenant_world _ _ _ _ _ _ _ Hres) as ->.
  destruct o as [o|]; [destruct c as [c|]|]; try discriminate.
  apply bind_inv_Ok in H as (ur & w1 & Hex & H).
  pose proof (exchangeIdentity_db _ _ _ _ _ _ _ _ _ Hex) as Hdb.
  apply bind_inv_Ok in H as (el & w2 & Hel & H).
  pose proof (checkEligibility_world _ _ _ _ _ _ Hel) as ->.
  apply bind_inv_Ok in H as ([u og] & w3 & Htx & H).
  destruct (generateLoginResultPayload_world env u og
              (negb (JS.truthy configId) && JS.truthy ssoType) w3)
    as (p' & Hp & Hpid & Hporg & Hpsuper).
  rewrite Hp in H. inversion H; subst p' w3; clear H.
  rewrite Hpid, Hporg. rewrite Hpsuper in Hsuper.
  unfold dbTransactionWrap in Htx.
  destruct (provision env o (organizationId r)
              (negb (JS.truthy configId) && JS.truthy ssoType) el w1)
    as [[x|e] w4] eqn:Hprov; [|discriminate].
  inversion Htx; subst x w4; clear Htx.
  unfold provision in Hprov.
  apply bind_inv_Ok in Hprov as ([u' og'] & w5 & Hbranches & Hprov).
  apply bind_inv_Ok in Hprov as ([] & w6 & Hlic & Hprov).
  inversion Hprov; subst u' og' w6; clear Hprov.
  assert (w5 = w') as ->.
  { unfold usersService.validateLicense in Hlic.
    destruct (licenseViolation env (db w5)); now inversion Hlic. }
  rewrite <- Hdb.
  refine (provisionUserAndOrganization_linked _ _ _ _ _ _ _ _ _ _
            Hbranches Hsuper).
  intros Hdirect.
  exact (resolveTenant_direct_id _ _ _ _ _ _ _ _ Hids Hres Hdirect).
Qed.

(** ** Strings *)

Lemma afterLast_absent c s : occurs c s = false -> afterLast c s = s.
Proof.
  destruct s as [|a s']; cbn; [reflexivity|].
  intros H. apply orb_false_iff in H as [Ha Hs]. now rewrite Hs, Ha.
Qed.

Lemma lastIndexOfFrom_spec c s : forall i found,
  if occurs c s
  then (i <= JS.lastIndexOfFrom c s i found
        /\ JS.drop (Z.to_nat (JS.lastIndexOfFrom c s i found - i + 1)) s
           = afterLast c s)%Z
  else JS.lastIndexOfFrom c s i found = found.
Proof.
  induction s as [|a s' IH]; intros i found; cbn; [reflexivity|].
  specialize (IH (i + 1)%Z (if Ascii.eqb a c then i else found)).
  destruct (occurs c s') eqn:Hs.
  - rewrite orb_true_r. destruct IH as [Hle Hdrop]. split; [lia|].
    rewrite <- Hdrop.
    replace (Z.to_nat (JS.lastIndexOfFrom c s' (i + 1)
                         (if Ascii.eqb a c then i else found) - i + 1))
      with (S (Z.to_nat (JS.lastIndexOfFrom c s' (i + 1)
                           (if Ascii.eqb a c then i else found)
                         - (i + 1) + 1))) by lia.
    reflexivity.
  - rewrite orb_false_r, IH. destruct (Ascii.eqb a c).
    + split; [lia|]. now replace (i - i + 1)%Z with 1%Z by lia.
    + reflexivity.
Qed.

(** The domain the code extracts, by [lastIndexOf] and [substring], is
    the substring after the last '@'. *)
Lemma substring_lastIndexOf_domainOf e :
  JS.substring (JS.lastIndexOf "@" e + 1) e = domainOf e.
Proof.
  unfold JS.substring, JS.lastIndexOf, domainOf.
  pose proof (lastIndexOfFrom_spec "@" e 0%Z (-1)%Z) as H.
  destruct (occurs "@" e) eqn:Ho.
  - destruct H as [_ H]. now rewrite Z.sub_0_r in H.
  - rewrite H. cbn. now rewrite afterLast_absent.
Qed.

Lemma afterLast_free c s : occurs c (afterLast c s) = false.
Proof.
  induction s as [|a s' IH]; cbn; [reflexivity|].
  destruct (occurs c s') eqn:Hs; [exact IH|].
  destruct (Ascii.eqb a c) eqn:Ha; [exact Hs|].
  cbn. now rewrite Ha, Hs.
Qed.

(** [domainOf e] follows the last '@' of [e]: it holds no '@', and [e]
    is it, or a prefix, an '@' and it. *)
Lemma domainOf_decompose e :
  occurs "@" (domainOf e) = false
  /\ (if occurs "@" e
      then exists prefix, e = (prefix ++ String "@" (domainOf e))%string
      else domainOf e = e).
Proof.
  split; [apply afterLast_free|]. unfold domainOf.
  induction e as [|a e' IH]; cbn; [reflexivity|].
  destruct (occurs "@" e') eqn:Hs.
  - rewrite orb_true_r. destruct IH as [p Hp].
    exists (String a p). cbn. now rewrite <- Hp.
  - rewrite orb_false_r. destruct (Ascii.eqb a "@") eqn:Ha.
    + apply Ascii.eqb_eq in Ha. subst a. now exists EmptyString.
    + reflexivity.
Qed.

Lemma split_join sep s : JS.join sep (JS.split sep s) = s.
Proof.
  induction s as [|a s' IH]; cbn; [reflexivity|].
  destruct (Ascii.eqb a sep) eqn:Ha.
  - apply Ascii.eqb_eq in Ha. subst a.
    cbn. destruct (JS.split sep s') as [|p ps] eqn:Hs.
    + now destruct s'; cbn in Hs; [|destruct (Ascii.eqb _ _), (JS.split _ _)].
    + now rewrite IH.
  - destruct (JS.split sep s') as [|p ps] eqn:Hs.
    + now destruct s'; cbn in Hs; [|destruct (Ascii.eqb _ _), (JS.split _ _)].
    + cbn in *. destruct ps; cbn; now rewrite <- IH.
Qed.

Lemma split_pieces_free sep s :
  Forall (fun piece => occurs sep piece = false) (JS.split sep s).
Proof.
  induction s as [|a s' IH]; cbn; [now constructor|].
  destruct (Ascii.eqb a sep) eqn:Ha.
  - now constructor.
  - destruct (JS.split sep s') as [|p ps]; constructor; cbn.
    + now rewrite Ha.
    + constructor.
    + inversion IH; subst. now rewrite Ha.
    + now inversion IH.
Qed.

Lemma trimStart_decompose s :
  exists l, s = (l ++ JS.trimStart s)%string /\ allWhiteSpace l.
Proof.
  induction s as [|a s' (l & Hl & Hw)]; cbn.
  - exists EmptyString. split; [reflexivity|]. intros a [].
  - destruct (JS.isWhiteSpace a) eqn:Ha.
    + exists (String a l). split; [cbn; now rewrite <- Hl|].
      intros b [<-|Hb]; [exact Ha|now apply Hw].
    + exists EmptyString. split; [reflexivity|]. intros b [].
Qed.

Lemma trimEnd_decompose s :
  exists r, s = (JS.trimEnd s ++ r)%string /\ allWhiteSpace r.
Proof.
  induction s as [|a s' (r & Hr & Hw)]; cbn.
  - exists EmptyString. split; [reflexivity|]. intros a [].
  - destruct (JS.isWhiteSpace a) eqn:Ha; cbn [andb].
    + destruct (JS.trimEnd s') eqn:Ht; cbn.
      * exists (String a r). split; [now rewrite Hr at 1|].
        intros b [<-|Hb]; [exact Ha|now apply Hw].
      * exists r. split; [now rewrite Hr at 1|exact Hw].
    + exists r. cbn. split; [now rewrite Hr at 1|exact Hw].
Qed.

(** [trim] removes white space from both ends and nothing else. *)
Lemma trim_decompose s :
  exists l r,
    s = (l ++ JS.trim s ++ r)%string /\ allWhiteSpace l /\ allWhiteSpace r.
Proof.
  destruct (trimStart_decompose s) as (l & Hl & Hwl).
  destruct (trimEnd_decompose (JS.trimStart s)) as (r & Hr & Hwr).
  exists l, r. unfold JS.trim. now rewrite <- Hr.
Qed.

Lemma trimStart_head s :
  match JS.trimStart s with
  | EmptyString => True
  | String a _ => JS.isWhiteSpace a = false
  end.
Proof.
  induction s as [|a s' IH]; cbn; [exact I|].
  destruct (JS.isWhiteSpace a) eqn:Ha; [exact IH|exact Ha].
Qed.

Lemma includes_In l x : JS.includes l x = true <-> In x l.
Proof.
  unfold JS.includes. rewrite existsb_exists. split.
  - intros (y & Hy & Heq). apply String.eqb_eq in Heq. now subst.
  - intros H. exists x. split; [exact H|apply String.eqb_refl].
Qed.

Lemma map_trim_guard l :
  map (fun e => if JS.nonEmpty e then JS.trim e else e) l = map JS.trim l.
Proof.
  apply map_ext. intros [|a s]; reflexivity.
Qed.

(** ** Domain policy *)

(** C5, as the code has it.  An absent or empty email is invalid
    whatever the allow-list.  For an email that is present: an absent or
    empty allow-list accepts it, whether or not a domain can be
    extracted; a non-empty allow-list accepts it exactly when the
    substring after its last '@' is, case-sensitively, one of the
    comma-split, trimmed, non-empty entries, and no entry is empty, so an
    email without a domain is then invalid. *)
Theorem isValidDomain_spec (a b : ascii) (e L : string) (r : option string) :
  isValidDomain None r = false
  /\ isValidDomain (Some "") r = false
  /\ isValidDomain (Some (String a e)) None = true
  /\ isValidDomain (Some (String a e)) (Some "") = true
  /\ (isValidDomain (Some (String a e)) (Some (String b L)) = true
      <-> In (domainOf (String a e)) (allowList (String b L)))
  /\ ~ In "" (allowList (String b L)).
Proof.
  repeat split; try reflexivity.
  - unfold isValidDomain. cbn [JS.nonEmpty JS.truthy negb].
    rewrite substring_lastIndexOf_domainOf, map_trim_guard.
    fold (allowList (String b L)).
    destruct (JS.nonEmpty (domainOf (String a e))); cbn [negb].
    + destruct (JS.includes _ _) eqn:Hi; cbn [negb]; [|discriminate].
      intros _. now apply includes_In.
    + discriminate.
  - intros Hin. unfold isValidDomain. cbn [JS.nonEmpty JS.truthy negb].
    rewrite substring_lastIndexOf_domainOf, map_trim_guard.
    fold (allowList (String b L)).
    assert (Hne : JS.nonEmpty (domainOf (String a e)) = true).
    { unfold allowList in Hin. now apply filter_In in Hin. }
    rewrite Hne. cbn [negb].
    apply includes_In in Hin. now rewrite Hin.
  - unfold allowList. intros Hin. apply filter_In in Hin as [_ Hne].
    discriminate.
Qed.

(** C5 as stated fails: this email has no extractable domain, yet the
    empty allow-list accepts it; and the empty allow-list does not accept
    every email, an empty one is rejected. *)
Lemma isValidDomain_empty_domain_accepted :
  domainOf "user@" = ""
  /\ isValidDomain (Some "user@") (Some "") = true
  /\ isValidDomain (Some "") (Some "") = false.
Proof. repeat split; reflexivity. Qed.

(* ================================================================== *)
(** * The properties on concrete requests *)
(* ================================================================== *)

Import Examples.

(** Evaluates the model on a concrete request. *)
Ltac evaluate := cbv; reflexivity.

(** A sign-in from the common login page with the tag of no provider. *)
Lemma signIn_unknown_provider_tag_witness :
  exists e,
    signIn (instance nothing unlimited) (commonPageRequest "zoe@new.io")
      None (Some "saml") None emptyWorld
    = (Throw e, emptyWorld)
    /\ e = TypeError
             "Cannot read properties of undefined (reading 'userSSOId')"
    /\ isUnauthorized e = false
    /\ isNotAcceptable e = false.
Proof.
  eapply signIn_unknown_provider_tag; evaluate.
Defined.

(** Eve is archived; her domain is the one acme accepts. *)
Lemma signIn_archived_user_witness :
  isValidDomain (Some "eve@acme.com") (domain (acme false)) = true
  /\ signIn (instance nothing unlimited) (commonPageRequest "eve@acme.com")
       (Some "cfg-google") None None (acmeWorld false)
     = (Throw (NotAcceptableException
                 "User has been removed from the system, please contact the administrator"),
        mkWorld (db (acmeWorld false)) [("google", "eve@acme.com")])
  /\ db (mkWorld (db (acmeWorld false)) [("google", "eve@acme.com")])
     = db (acmeWorld false).
Proof.
  split; [reflexivity|].
  eapply signIn_archived_user; evaluate.
Defined.

(** Zoe has no membership in acme, which does not allow sign-up. *)
Lemma signIn_signup_disabled_no_membership_witness :
  signIn (instance nothing unlimited) (commonPageRequest "zoe@acme.com")
    (Some "cfg-google") None None (acmeWorld false)
  = (Throw (UnauthorizedException
              (Some "User does not exist in the workspace")),
     mkWorld (db (acmeWorld false)) [("google", "zoe@acme.com")])
  /\ db (mkWorld (db (acmeWorld false)) [("google", "zoe@acme.com")])
     = db (acmeWorld false).
Proof.
  eapply signIn_signup_disabled_no_membership; evaluate.
Defined.

(** The first user of the system signs up from the common login page
    under a license without a seat: the branches create the workspace,
    the user and the membership, the license check refuses the store that
    holds them, and the database is empty again. *)
Lemma signIn_license_failure_rolls_back_witness :
  (exists res w2,
     provisionUserAndOrganization (instance nothing (seatLimit 0))
       (snd (getInstanceSSOConfigs (instance nothing (seatLimit 0))
               (Some "google")))
       None true
       (mkEligible
          (mkUserResponse (Some "subject-1") (Some "zoe@new.io") (Some "zoe")
             (Some "Doe")) None true)
       (mkWorld (db emptyWorld) [("google", "zoe@new.io")])
     = (Ok res, w2)
     /\ length (users (db w2)) = 1
     /\ length (organizations (db w2)) = 1
     /\ length (organizationUsers (db w2)) = 1)
  /\ signIn (instance nothing (seatLimit 0)) (commonPageRequest "zoe@new.io")
       None (Some "google") None emptyWorld
     = (Throw (CollaboratorError "License violation - user limit reached"),
        mkWorld (db emptyWorld) [("google", "zoe@new.io")]).
Proof.
  split.
  - do 2 eexists. split; [evaluate|]. repeat split.
  - etransitivity;
      [eapply signIn_license_failure_rolls_back; evaluate | evaluate].
Defined.

(** Ann exists, as a member of lab only, and signs in to acme, which
    allows sign-up: no user is created, one inactive membership is. *)
Lemma findOrCreateUser_spec_witness :
  JS.truthy (org_id (acme true)) = true
  /\ exists user m w',
       findOrCreateUser (identity "ann@acme.com") (acme true) annInLab
       = (Ok user, w')
       /\ organizationUsers (db w') = organizationUsers (db annInLab) ++ [m]
       /\ ou_userId m = user_id user
       /\ ou_organizationId m = org_id (acme true)
       /\ ou_status m = Invited
       /\ user = ann /\ users (db w') = users (db annInLab).
Proof.
  split; [reflexivity|].
  exact (findOrCreateUser_spec (identity "ann@acme.com") (acme true) annInLab
           eq_refl).
Defined.

(** Ann, an active member of acme, signs in from the common login
    page. *)
Lemma signIn_common_page_selection_writes_nothing_witness :
  db (mkWorld (db (acmeWorld false)) [("google", "ann@acme.com")])
  = db (acmeWorld false)
  /\ signIn (instance nothing unlimited) (commonPageRequest "ann@acme.com")
       None (Some "google") None (acmeWorld false)
     = generateLoginResultPayload (instance nothing unlimited) ann
         (acme false) true
         (mkWorld (db (acmeWorld false)) [("google", "ann@acme.com")]).
Proof.
  edestruct (signIn_common_page_selection_writes_nothing
               (instance nothing unlimited)
               (commonPageRequest "ann@acme.com") None (Some "google") None
               (acmeWorld false))
    as [Hdb Hrun]; [evaluate ..|].
  split; [evaluate|].
  etransitivity; [exact Hrun|evaluate].
Defined.

(** The first user of the system signs up from the common login page:
    the membership behind the session is the row the call added. *)
Lemma signIn_session_membership_witness :
  exists p w',
    signIn (instance nothing unlimited) (commonPageRequest "zoe@new.io")
      None (Some "google") None emptyWorld
    = (Ok p, w')
    /\ exists m,
         In m (organizationUsers (db w'))
         /\ ou_userId m = Payload.id p
         /\ ou_organizationId m = Payload.organization_id p
         /\ (ou_status m = Active
             \/ exists l,
                  organizationUsers (db w') = l ++ [m]
                  /\ length l = length (organizationUsers (db emptyWorld))).
Proof.
  do 2 eexists. split; [evaluate|].
  apply (signIn_session_membership (instance nothing unlimited)
           (commonPageRequest "zoe@new.io") None (Some "google") None
           emptyWorld);
    evaluate.
Defined.

(** C1 as stated fails.  After the sign-up of the first user the only
    membership of the store is the new one, and it is inactive; and a
    super-administrator with no default organization is signed in, from
    the common login page, to an organization in which it has no
    membership at all. *)
Lemma signIn_without_active_membership :
  (exists p w',
     signIn (instance nothing unlimited) (commonPageRequest "zoe@new.io")
       None (Some "google") None emptyWorld
     = (Ok p, w')
     /\ Payload.id p = "gen-1"
     /\ Payload.organization_id p = Some "gen-0"
     /\ organizationUsers (db w')
        = [mkOrganizationUser "gen-2" "gen-1" (Some "gen-0") Invited])
  /\ (exists p w',
        signIn (instance nothing unlimited)
          (commonPageRequest "root@acme.com") None (Some "google") None
          rootWorld
        = (Ok p, w')
        /\ Payload.id p = "user-root"
        /\ Payload.organization_id p = Some "org-acme"
        /\ organizationUsers (db w') = []).
Proof.
  split; do 2 eexists; (split; [evaluate|]); repeat split.
Qed.

(** C4 on Bob, who has a pending invitation into acme, his default
    organization, where his membership is invited.  He signs in from the
    common login page of an instance that allows personal workspaces.
    The token is cleared, but [activate] is handed the identifier of the
    organization, which is the identifier of no membership: the
    membership in acme is still invited, acme is therefore no candidate,
    and the session is bound to a workspace created on the spot. *)
Theorem signIn_invitation_membership_stays_invited :
  exists p w',
    signIn (instance personalWorkspaces unlimited)
      (commonPageRequest "bob@acme.com") None (Some "google") None bobInvited
    = (Ok p, w')
    /\ map user_invitationToken (users (db w')) = [None]
    /\ organizationUsers (db w')
       = [member "ou-1" bob (acme false) Invited;
          mkOrganizationUser "gen-1" "user-bob" (Some "gen-0") Invited]
    /\ Payload.organization_id p = Some "gen-0"
    /\ Payload.organization p = Some "Untitled workspace".
Proof.
  do 2 eexists. split; [evaluate|]. repeat split.
Qed.

(* ================================================================== *)
(** * The scenarios of the specification, run on the model *)
(* ================================================================== *)

(** An identity without subject id or without email is rejected as
    Unauthorized whatever the store holds (section 4.6, step 1). *)
Lemma signIn_invalid_identity env r configId ssoType cookies w c o ur w1 :
  resolveTenant env r configId ssoType w = (Ok (Some c, Some o), w) ->
  exchangeIdentity env (sso c) (sso_configs c) (token r) configId cookies w
  = (Ok (Some ur), w1) ->
  JS.truthy (userSSOId ur) && JS.truthy (email ur) = false ->
  signIn env r configId ssoType cookies w
  = (Throw (UnauthorizedException (Some "Invalid credentials")), w1).
Proof.
  intros Hres Hex Hid.
  rewrite (signIn_resolved _ _ _ _ _ _ _ _ Hres).
  unfold signInResolved.
  erewrite bind_Ok by exact Hex.
  apply bind_Throw. unfold checkEligibility.
  now rewrite Hid.
Qed.

(** Domain restriction: acme accepts acme.com only. *)
Example signIn_domain_restriction :
  signIn (instance nothing unlimited) (commonPageRequest "user@other.com")
    (Some "cfg-google") None None (acmeWorld true)
  = (Throw (UnauthorizedException
              (Some "You cannot sign in using the mail id - Domain verification failed")),
     mkWorld (db (acmeWorld true)) [("google", "user@other.com")])
  /\ exists p,
       signIn (instance nothing unlimited) (commonPageRequest "ann@acme.com")
         (Some "cfg-google") None None (acmeWorld true)
       = (Ok p, mkWorld (db (acmeWorld true)) [("google", "ann@acme.com")])
       /\ Payload.organization_id p = Some "org-acme".
Proof.
  split; [evaluate|]. eexists. split; [evaluate|reflexivity].
Qed.

(** Idempotence: signing in again with an active membership creates no
    second user and no second membership. *)
Example signIn_idempotent :
  forall enableSignUp,
    db (snd (signIn (instance nothing unlimited)
               (commonPageRequest "ann@acme.com") (Some "cfg-google") None
               None (acmeWorld enableSignUp)))
    = db (acmeWorld enableSignUp).
Proof. intros []; evaluate. Qed.

(** The slip of line 292 in general: on the common login page the
    invitation branch clears the token of the user and hands [activate]
    the identifier of the user's default organization. *)
Lemma provision_invitation_branch env o isInstanceSSOLogin el u w :
  negb (isSingleOrganization env) && isInstanceSSOLogin = true ->
  el_userDetails el = Some u ->
  JS.truthy (user_invitationToken u) = true ->
  provisionUserAndOrganization env o None isInstanceSSOLogin el w
  = bind
      (selectOrganization u (el_allowPersonalWorkspace el))
      (fun organizationDetails => ret (u, organizationDetails))
      (mkWorld
         (mapOrganizationUsers
            (organizationUsersService.activateRow
               (user_defaultOrganizationId u))
            (mapUsers (usersService.clearInvitationToken (user_id u))
               (db w)))
         (exchanges w)).
Proof.
  intros Hpage Hu Htoken. unfold provisionUserAndOrganization.
  rewrite Hpage, Hu, Htoken. reflexivity.
Qed.

(* ================================================================== *)
(** * Part 5: further properties of the service *)
(* ================================================================== *)

(** ** The domain policy *)

Lemma occurs_app c s t :
  occurs c (s ++ t)%string = occurs c s || occurs c t.
Proof.
  induction s as [|a s IH]; cbn; [reflexivity|].
  now rewrite IH, orb_assoc.
Qed.

Lemma split_cons sep s : exists p ps, JS.split sep s = p :: ps.
Proof.
  destruct s as [|a s]; cbn; [now eexists; eexists|].
  destruct (Ascii.eqb a sep); [now eexists; eexists|].
  destruct (JS.split sep s); now eexists; eexists.
Qed.

(** Splitting two strings joined by the separator gives the pieces of
    the first and then the pieces of the second. *)
Lemma split_app sep s t :
  JS.split sep (s ++ String sep t)%string = JS.split sep s ++ JS.split sep t.
Proof.
  induction s as [|a s IH]; cbn.
  - now rewrite Ascii.eqb_refl.
  - destruct (Ascii.eqb a sep); [now rewrite IH|].
    rewrite IH. destruct (split_cons sep s) as (p & ps & ->). reflexivity.
Qed.

Lemma allowList_app L1 L2 :
  allowList (L1 ++ String "," L2)%string = allowList L1 ++ allowList L2.
Proof.
  unfold allowList. now rewrite split_app, map_app, filter_app.
Qed.

(** On a present email and a non-empty allow-list the verdict is the
    membership of the domain among the entries. *)
Lemma isValidDomain_restricted a e b L :
  isValidDomain (Some (String a e)) (Some (String b L))
  = JS.includes (allowList (String b L)) (domainOf (String a e)).
Proof.
  unfold isValidDomain. cbn [JS.nonEmpty JS.truthy negb].
  rewrite substring_lastIndexOf_domainOf, map_trim_guard.
  fold (allowList (String b L)).
  destruct (JS.nonEmpty (domainOf (String a e))) eqn:Hne; cbn [negb].
  - now destruct (JS.includes _ _).
  - symmetry. apply not_true_is_false. intros Hin.
    apply includes_In in Hin. unfold allowList in Hin.
    apply filter_In in Hin as [_ Hin]. congruence.
Qed.

(** The verdict on a present email depends on the email only through
    the substring after its last '@': two emails with the same domain
    are both valid or both invalid, for every allow-list. *)
Theorem isValidDomain_same_domain a1 e1 a2 e2 restrictedDomain :
  domainOf (String a1 e1) = domainOf (String a2 e2) ->
  isValidDomain (Some (String a1 e1)) restrictedDomain
  = isValidDomain (Some (String a2 e2)) restrictedDomain.
Proof.
  intros Hd. destruct restrictedDomain as [[|b L]|]; try reflexivity.
  now rewrite !isValidDomain_restricted, Hd.
Qed.

(** Two non-empty allow-lists joined by a comma accept exactly the
    emails that one of them accepts. *)
Theorem isValidDomain_joined_allow_lists a e b1 L1 b2 L2 :
  isValidDomain (Some (String a e))
    (Some (String b1 L1 ++ String "," (String b2 L2))%string)
  = isValidDomain (Some (String a e)) (Some (String b1 L1))
    || isValidDomain (Some (String a e)) (Some (String b2 L2)).
Proof.
  change (String b1 L1 ++ String "," (String b2 L2))%string
    with (String b1 (L1 ++ String "," (String b2 L2))%string).
  rewrite !isValidDomain_restricted.
  change (String b1 (L1 ++ String "," (String b2 L2))%string)
    with (String b1 L1 ++ String "," (String b2 L2))%string.
  rewrite allowList_app. unfold JS.includes. apply existsb_app.
Qed.

(** An email without any '@' is not rejected for that: the whole email
    is taken as its domain, so a non-empty allow-list accepts it exactly
    when the email itself is one of the entries. *)
Theorem isValidDomain_without_at a e b L :
  occurs "@" (String a e) = false ->
  isValidDomain (Some (String a e)) (Some (String b L))
  = JS.includes (allowList (String b L)) (String a e).
Proof.
  intros Hno. rewrite isValidDomain_restricted.
  unfold domainOf. now rewrite afterLast_absent.
Qed.

Lemma trim_occurs c s : occurs c (JS.trim s) = true -> occurs c s = true.
Proof.
  destruct (trim_decompose s) as (l & r & Hs & _). intros H.
  rewrite Hs, !occurs_app, H. now rewrite orb_true_r.
Qed.

Lemma allowList_entry_free L d :
  In d (allowList L) -> occurs "," d = false.
Proof.
  unfold allowList. intros H. apply filter_In in H as [H _].
  apply in_map_iff in H as (piece & <- & Hin).
  pose proof (split_pieces_free "," L) as Hfree.
  rewrite Forall_forall in Hfree. specialize (Hfree piece Hin).
  apply not_true_is_false. intros Hc. apply trim_occurs in Hc. congruence.
Qed.

Lemma trimStart_trimEnd_head s :
  match JS.trimEnd s with
  | EmptyString => True
  | String a _ =>
      match s with
      | EmptyString => False
      | String a' _ => a = a'
      end
  end.
Proof.
  destruct s as [|a s]; cbn; [exact I|].
  now destruct (JS.isWhiteSpace a && negb (JS.nonEmpty (JS.trimEnd s))).
Qed.

Lemma allowList_entry_head L d :
  In d (allowList L) ->
  match d with
  | EmptyString => False
  | String a _ => JS.isWhiteSpace a = false
  end.
Proof.
  unfold allowList. intros H. apply filter_In in H as [H Hne].
  apply in_map_iff in H as (piece & <- & _).
  unfold JS.trim in *.
  pose proof (trimStart_head piece) as Hs.
  pose proof (trimStart_trimEnd_head (JS.trimStart piece)) as He.
  destruct (JS.trimEnd (JS.trimStart piece)) as [|x t]; [discriminate|].
  destruct (JS.trimStart piece) as [|y t']; [contradiction|].
  now subst.
Qed.

(** No entry of an allow-list holds a comma or starts with white space:
    a non-empty allow-list never accepts an email whose domain contains
    a comma or begins with a white-space character. *)
Theorem isValidDomain_never_comma_or_leading_space a e b L :
  isValidDomain (Some (String a e)) (Some (String b L)) = true ->
  occurs "," (domainOf (String a e)) = false
  /\ match domainOf (String a e) with
     | EmptyString => False
     | String x _ => JS.isWhiteSpace x = false
     end.
Proof.
  rewrite isValidDomain_restricted. intros H. apply includes_In in H.
  split; [exact (allowList_entry_free _ _ H)|exact (allowList_entry_head _ _ H)].
Qed.

(** ** Computations that move the world along a relation *)

Section MovesBy.

Variable R : World -> World -> Prop.
Hypothesis R_refl : forall w, R w w.
Hypothesis R_trans : forall w1 w2 w3, R w1 w2 -> R w2 w3 -> R w1 w3.

Lemma movesBy_ret {A} (a : A) : movesBy R (ret a).
Proof. intros w res w' H. inversion H. apply R_refl. Qed.

Lemma movesBy_throw {A} e : movesBy R (@throw A e).
Proof. intros w res w' H. inversion H. apply R_refl. Qed.

Lemma movesBy_query {A} (f : Store -> A) : movesBy R (query f).
Proof. intros w res w' H. inversion H. apply R_refl. Qed.

Lemma movesBy_bind {A B} (m : M A) (k : A -> M B) :
  movesBy R m -> (forall a, movesBy R (k a)) -> movesBy R (bind m k).
Proof.
  intros Hm Hk w res w'. unfold bind.
  destruct (m w) as [[a|e] w1] eqn:E; intros H.
  - exact (R_trans _ _ _ (Hm _ _ _ E) (Hk a _ _ _ H)).
  - inversion H; subst. exact (Hm _ _ _ E).
Qed.

Lemma movesBy_update f :
  (forall w, R w (mkWorld (f (db w)) (exchanges w))) -> movesBy R (update f).
Proof. intros Hf w res w' H. inversion H. apply Hf. Qed.

Lemma movesBy_freshId :
  (forall w,
     R w (mkWorld
            (mkStore (users (db w)) (organizations (db w))
               (organizationUsers (db w)) (groupUsers (db w))
               (S (nextId (db w))))
            (exchanges w))) ->
  movesBy R freshId.
Proof. intros Hf w res w' H. inversion H. apply Hf. Qed.

Lemma movesBy_validateLicense env : movesBy R (usersService.validateLicense env).
Proof.
  intros w res w'. unfold usersService.validateLicense.
  destruct (licenseViolation env (db w)); intros H; inversion H; apply R_refl.
Qed.

(** A transaction moves the world along [R] when its operation does and
    [R] admits the rollback. *)
Lemma movesBy_dbTransactionWrap {A} (m : M A) :
  (forall w w', R w w' -> R w (mkWorld (db w) (exchanges w'))) ->
  movesBy R m -> movesBy R (dbTransactionWrap m).
Proof.
  intros Hback Hm w res w'. unfold dbTransactionWrap.
  destruct (m w) as [[a|e] w1] eqn:E; intros H; inversion H; subst.
  - exact (Hm _ _ _ E).
  - apply Hback. exact (Hm _ _ _ E).
Qed.

End MovesBy.

(** Breaks a computation of the service into its steps. *)
Ltac moves_step R_refl R_trans :=
  match goal with
  | |- movesBy _ (bind _ _) => apply movesBy_bind; [exact R_trans| |intro]
  | |- movesBy _ (ret _) => apply movesBy_ret; exact R_refl
  | |- movesBy _ (throw _) => apply movesBy_throw; exact R_refl
  | |- movesBy _ (query _) => apply movesBy_query; exact R_refl
  | |- movesBy _ (usersService.validateLicense _) =>
      apply movesBy_validateLicense; exact R_refl
  | |- movesBy _ (when ?b _) => destruct b; unfold when
  | |- movesBy _ (if ?b then _ else _) => destruct b
  | |- movesBy _ (match ?x with _ => _ end) => destruct x
  | |- movesBy _ (let _ := _ in _) => cbv zeta
  end.

(** ** Provider calls *)

Lemma sameExchanges_refl w : sameExchanges w w.
Proof. reflexivity. Qed.

Lemma sameExchanges_trans w1 w2 w3 :
  sameExchanges w1 w2 -> sameExchanges w2 w3 -> sameExchanges w1 w3.
Proof. unfold sameExchanges. congruence. Qed.

Ltac exchanges_kept :=
  repeat first
    [ moves_step sameExchanges_refl sameExchanges_trans
    | apply movesBy_update; reflexivity
    | apply movesBy_freshId; reflexivity ].

Lemma provision_sameExchanges env o organizationId isInstanceSSOLogin el :
  movesBy sameExchanges
    (provision env o organizationId isInstanceSSOLogin el).
Proof.
  unfold provision, provisionUserAndOrganization, selectOrganization,
    findAndActivateUser, findOrCreateUser, usersService.findOrCreateByEmail,
    usersService.create, organizationService.create,
    organizationUsersService.create, organizationUsersService.activate,
    usersService.updateUser_invitationToken_null.
  exchanges_kept.
Qed.

Lemma isLiteral_eq v lit : JS.isLiteral v lit = true -> v = Some lit.
Proof.
  destruct v as [s|]; [|discriminate]. cbn. intros H.
  apply String.eqb_eq in H. now subst.
Qed.

Lemma exchangeIdentity_exchanges env sso configs token configId cookies w
    res w' :
  exchangeIdentity env sso configs token configId cookies w = (res, w') ->
  w' = w
  \/ exists provider,
       In provider ["google"; "git"; "openid"]
       /\ sso = Some provider
       /\ exchanges w' = exchanges w ++ [(provider, token)].
Proof.
  unfold exchangeIdentity, exchange, bind, ret, throw.
  destruct (JS.isLiteral sso "google") eqn:Hgoogle.
  { apply isLiteral_eq in Hgoogle.
    destruct (googleOAuthService_signIn env token configs);
      intros H; inversion H; right; exists "google"; cbn; auto. }
  destruct (JS.isLiteral sso "git") eqn:Hgit.
  { apply isLiteral_eq in Hgit.
    destruct (gitOAuthService_signIn env token configs);
      intros H; inversion H; right; exists "git"; cbn; auto. }
  destruct (JS.isLiteral sso "openid") eqn:Hoidc.
  { apply isLiteral_eq in Hoidc.
    destruct (License_oidc env); cbn [negb];
      [|intros H; inversion H; now left].
    destruct cookies as [cookies|]; [|intros H; inversion H; now left].
    destruct (oidcOAuthService_signIn env token configs configId
                (oidc_code_verifier cookies));
      intros H; inversion H; right; exists "openid"; cbn; auto. }
  intros H; inversion H; now left.
Qed.

(** After the identity exchange [signIn] calls no provider. *)
Lemma signInResolved_after_exchange env r configId ssoType cookies c o w
    ur w1 res w' :
  exchangeIdentity env (sso c) (sso_configs c) (token r) configId cookies w
  = (Ok ur, w1) ->
  signInResolved env r configId ssoType cookies c o w = (res, w') ->
  exchanges w' = exchanges w1.
Proof.
  intros Hex. unfold signInResolved. erewrite bind_Ok by exact Hex.
  unfold bind at 1.
  destruct (checkEligibility env ur (domain o) w1) as [[el|e] w2] eqn:Hel;
    pose proof (checkEligibility_world _ _ _ _ _ _ Hel) as ->;
    [|intros H; now inversion H].
  unfold bind at 1.
  destruct (dbTransactionWrap _ w1) as [[[u og]|e] w3] eqn:Htx.
  - assert (Hx : sameExchanges w1 w3).
    { refine (movesBy_dbTransactionWrap sameExchanges _ _
                (provision_sameExchanges _ _ _ _ _) _ _ _ Htx).
      intros ? ? H; exact H. }
    destruct (generateLoginResultPayload_world env u og
                (negb (JS.truthy configId) && JS.truthy ssoType) w3)
      as (p & Hp & _).
    rewrite Hp. intros H; inversion H; subst. exact Hx.
  - intros H; inversion H; subst.
    refine (movesBy_dbTransactionWrap sameExchanges _ _
              (provision_sameExchanges _ _ _ _ _) _ _ _ Htx).
    intros ? ? H'; exact H'.
Qed.

(** One call of [signIn] calls at most one identity provider, once, with
    the token of the request; and the provider called is the one the tag
    of the resolved SSO config names.  A request whose tenant does not
    resolve reaches no provider. *)
Theorem signIn_calls_at_most_one_provider env r configId ssoType cookies w :
  let w' := snd (signIn env r configId ssoType cookies w) in
  exchanges w' = exchanges w
  \/ exists provider c o,
       In provider ["google"; "git"; "openid"]
       /\ resolveTenant env r configId ssoType w = (Ok (Some c, Some o), w)
       /\ sso c = Some provider
       /\ exchanges w' = exchanges w ++ [(provider, token r)].
Proof.
  cbv zeta.
  destruct (resolveTenant env r configId ssoType w) as [res w0] eqn:Hres.
  pose proof (resolveTenant_world _ _ _ _ _ _ _ Hres) as ->.
  destruct res as [[[c|] [o|]]|e];
    try (left; unfold signIn;
         (erewrite bind_Ok by exact Hres) || (erewrite bind_Throw by exact Hres);
         reflexivity).
  rewrite (signIn_resolved _ _ _ _ _ _ _ _ Hres).
  destruct (signInResolved env r configId ssoType cookies c o w)
    as [res w'] eqn:Hrun. cbn [snd].
  destruct (exchangeIdentity env (sso c) (sso_configs c) (token r) configId
              cookies w) as [[ur|e] w1] eqn:Hex.
  - rewrite (signInResolved_after_exchange _ _ _ _ _ _ _ _ _ _ _ _ Hex Hrun).
    destruct (exchangeIdentity_exchanges _ _ _ _ _ _ _ _ _ Hex)
      as [->|(provider & Hin & Hsso & Hx)]; [now left|].
    right. exists provider, c, o. auto.
  - unfold signInResolved in Hrun. erewrite bind_Throw in Hrun by exact Hex.
    inversion Hrun; subst.
    destruct (exchangeIdentity_exchanges _ _ _ _ _ _ _ _ _ Hex)
      as [->|(provider & Hin & Hsso & Hx)]; [now left|].
    right. exists provider, c, o. auto.
Qed.

(** ** [signIn] from the transaction on *)

Lemma world_eta w : mkWorld (db w) (exchanges w) = w.
Proof. now destruct w. Qed.

(** When the branches of the transaction throw, [signIn] throws the same
    exception and the world is the one the eligibility checks left. *)
Lemma signIn_provision_Throw env r configId ssoType cookies w c o ur w1 el
    e w2 :
  resolveTenant env r configId ssoType w = (Ok (Some c, Some o), w) ->
  exchangeIdentity env (sso c) (sso_configs c) (token r) configId cookies w
  = (Ok ur, w1) ->
  checkEligibility env ur (domain o) w1 = (Ok el, w1) ->
  provisionUserAndOrganization env o (organizationId r)
    (negb (JS.truthy configId) && JS.truthy ssoType) el w1
  = (Throw e, w2) ->
  signIn env r configId ssoType cookies w = (Throw e, w1).
Proof.
  intros Hres Hex Hel Hprov.
  rewrite (signIn_resolved _ _ _ _ _ _ _ _ Hres). unfold signInResolved.
  erewrite bind_Ok by exact Hex. erewrite bind_Ok by exact Hel.
  apply bind_Throw.
  assert (Hp : provision env o (organizationId r)
                 (negb (JS.truthy configId) && JS.truthy ssoType) el w1
               = (Throw e, w2))
    by (unfold provision; now apply bind_Throw).
  rewrite (dbTransactionWrap_Throw _ _ _ _ Hp).
  rewrite (provision_sameExchanges _ _ _ _ _ _ _ _ Hp).
  now rewrite world_eta.
Qed.

(** When the branches of the transaction succeed and the license check
    passes on the store they leave, [signIn] returns the payload of the
    user and the organization they yield. *)
Lemma signIn_provision_Ok env r configId ssoType cookies w c o ur w1 el
    u og w2 :
  resolveTenant env r configId ssoType w = (Ok (Some c, Some o), w) ->
  exchangeIdentity env (sso c) (sso_configs c) (token r) configId cookies w
  = (Ok ur, w1) ->
  checkEligibility env ur (domain o) w1 = (Ok el, w1) ->
  provisionUserAndOrganization env o (organizationId r)
    (negb (JS.truthy configId) && JS.truthy ssoType) el w1
  = (Ok (u, og), w2) ->
  licenseViolation env (db w2) = None ->
  signIn env r configId ssoType cookies w
  = generateLoginResultPayload env u og
      (negb (JS.truthy configId) && JS.truthy ssoType) w2.
Proof.
  intros Hres Hex Hel Hprov Hlic.
  rewrite (signIn_resolved _ _ _ _ _ _ _ _ Hres). unfold signInResolved.
  erewrite bind_Ok by exact Hex. erewrite bind_Ok by exact Hel.
  assert (Hlicense : usersService.validateLicense env w2 = (Ok tt, w2))
    by (unfold usersService.validateLicense; now rewrite Hlic).
  assert (Htx : dbTransactionWrap
                  (provision env o (organizationId r)
                     (negb (JS.truthy configId) && JS.truthy ssoType) el) w1
                = (Ok (u, og), w2)).
  { apply dbTransactionWrap_Ok. unfold provision.
    erewrite bind_Ok by exact Hprov.
    erewrite bind_Ok by exact Hlicense. reflexivity. }
  erewrite bind_Ok by exact Htx. reflexivity.
Qed.

(** What a successful [signIn] went through. *)
Lemma signIn_Ok_inv env r configId ssoType cookies w p w' :
  signIn env r configId ssoType cookies w = (Ok p, w') ->
  exists c o ur w1 el u og,
    resolveTenant env r configId ssoType w = (Ok (Some c, Some o), w)
    /\ exchangeIdentity env (sso c) (sso_configs c) (token r) configId
         cookies w = (Ok (Some ur), w1)
    /\ checkEligibility env (Some ur) (domain o) w1 = (Ok el, w1)
    /\ provisionUserAndOrganization env o (organizationId r)
         (negb (JS.truthy configId) && JS.truthy ssoType) el w1
       = (Ok (u, og), w')
    /\ licenseViolation env (db w') = None
    /\ generateLoginResultPayload env u og
         (negb (JS.truthy configId) && JS.truthy ssoType) w' = (Ok p, w').
Proof.
  intros H. unfold signIn in H.
  apply bind_inv_Ok in H as ([c o] & w0 & Hres & H).
  pose proof (resolveTenant_world _ _ _ _ _ _ _ Hres) as ->.
  destruct o as [o|]; [destruct c as [c|]|]; try discriminate.
  apply bind_inv_Ok in H as (ur & w1 & Hex & H).
  apply bind_inv_Ok in H as (el & w2 & Hel & H).
  pose proof (checkEligibility_world _ _ _ _ _ _ Hel) as ->.
  destruct ur as [ur|]; [|discriminate].
  apply bind_inv_Ok in H as ([u og] & w3 & Htx & H).
  destruct (generateLoginResultPayload_world env u og
              (negb (JS.truthy configId) && JS.truthy ssoType) w3)
    as (p' & Hp & _).
  assert (w3 = w') as -> by (rewrite Hp in H; now inversion H).
  unfold dbTransactionWrap in Htx.
  destruct (provision env o (organizationId r)
              (negb (JS.truthy configId) && JS.truthy ssoType) el w1)
    as [[x|e] w4] eqn:Hprov; [|discriminate].
  inversion Htx; subst x w4; clear Htx.
  unfold provision in Hprov.
  apply bind_inv_Ok in Hprov as ([u' og'] & w5 & Hbranches & Hprov).
  apply bind_inv_Ok in Hprov as ([] & w6 & Hlic & Hprov).
  inversion Hprov; subst u' og' w6; clear Hprov.
  unfold usersService.validateLicense in Hlic.
  destruct (licenseViolation env (db w5)) eqn:Hl; inversion Hlic; subst w5.
  exists c, o, ur, w1, el, u, og. repeat split; assumption.
Qed.

(** ** The session payload *)

(** The signed claims of a session agree with the response that carries
    the token: the same user id as [username], the same email as [sub],
    the same organization, and [isSSOLogin] exactly when the request
    came without a config id and with a provider tag. *)
Theorem signIn_token_claims env r configId ssoType cookies w p w' :
  signIn env r configId ssoType cookies w = (Ok p, w') ->
  Payload.auth_token p
  = jwtService_sign env
      (Payload.id p, Payload.email p, Payload.organization_id p,
       negb (JS.truthy configId) && JS.truthy ssoType).
Proof.
  intros H.
  apply signIn_Ok_inv in H
    as (c & o & ur & w1 & el & u & og & _ & _ & _ & _ & _ & Hp).
  unfold generateLoginResultPayload, query in Hp.
  inversion Hp. reflexivity.
Qed.

Lemma findByEmail_email s e organizationId statuses u l :
  usersService.findByEmail s e organizationId statuses = Some (u, l) ->
  Some (user_email u) = e.
Proof.
  unfold usersService.findByEmail.
  destruct organizationId as [i|]; [destruct (JS.nonEmpty i)|];
    (destruct (find _ (users s)) as [x|] eqn:Hfind; [|discriminate]);
    intros H; inversion H; subst x; apply find_some in Hfind as [_ Hx].
  - apply andb_prop in Hx as [Hx _]. now apply strictEq_eq.
  - now apply strictEq_eq.
  - now apply strictEq_eq.
Qed.

Lemma findOrCreateByEmail_email params organizationId w u created w' :
  usersService.findOrCreateByEmail params organizationId w
  = (Ok (u, created), w') ->
  JS.truthy (email params) = true ->
  Some (user_email u) = email params.
Proof.
  unfold usersService.findOrCreateByEmail, bind, query.
  destruct (usersService.findByEmail (db w) (email params) None [])
    as [[u0 l]|] eqn:Hfind.
  - pose proof (findByEmail_email _ _ _ _ _ _ Hfind) as He.
    destruct (usersService.isMemberOf (db w) u0 organizationId);
      unfold usersService.create, bind, update, ret;
      intros H _; inversion H; now subst.
  - unfold usersService.create, freshId, bind, update, ret. cbn.
    intros H Ht. inversion H; subst. cbn.
    destruct (email params); [reflexivity|discriminate].
Qed.

Lemma findOrCreateUser_email ur org w u w' :
  findOrCreateUser ur org w = (Ok u, w') ->
  JS.truthy (email ur) = true ->
  Some (user_email u) = email ur.
Proof.
  unfold findOrCreateUser. intros H Ht.
  apply bind_inv_Ok in H as (existing & w1 & Hq & H).
  unfold query in Hq. inversion Hq; subst existing w1; clear Hq.
  destruct (usersService.findByEmail (db w) (email ur) (org_id org)
              [Active; Invited]) as [[u0 [|m rest]]|] eqn:Hfind;
    cbn [hd_error] in H.
  - apply bind_inv_Ok in H as ([u1 created] & w1 & Hc & H).
    apply bind_inv_Ok in H as ([] & w2 & _ & H).
    inversion H; subst.
    exact (findOrCreateByEmail_email _ _ _ _ _ _ Hc Ht).
  - apply bind_inv_Ok in H as ([] & w1 & _ & H). inversion H; subst.
    exact (findByEmail_email _ _ _ _ _ _ Hfind).
  - apply bind_inv_Ok in H as ([u1 created] & w1 & Hc & H).
    apply bind_inv_Ok in H as ([] & w2 & _ & H).
    inversion H; subst.
    exact (findOrCreateByEmail_email _ _ _ _ _ _ Hc Ht).
Qed.

Lemma findAndActivateUser_email e organizationId w u w' :
  findAndActivateUser e organizationId w = (Ok u, w') ->
  Some (user_email u) = e.
Proof.
  unfold findAndActivateUser. intros H.
  apply bind_inv_Ok in H as (found & w1 & Hq & H).
  unfold query in Hq. inversion Hq; subst found w1; clear Hq.
  destruct (usersService.findByEmail (db w) e organizationId
              [Active; Invited]) as [[u0 [|m rest]]|] eqn:Hfind;
    cbn [hd_error] in H; try discriminate.
  apply bind_inv_Ok in H as ([] & w1 & _ & H). inversion H; subst.
  exact (findByEmail_email _ _ _ _ _ _ Hfind).
Qed.

Lemma provisionUserAndOrganization_email
    env o organizationId isInstanceSSOLogin ur el w u og w' :
  checkEligibility env (Some ur) (domain o) w = (Ok el, w) ->
  provisionUserAndOrganization env o organizationId isInstanceSSOLogin el w
  = (Ok (u, og), w') ->
  Some (user_email u) = email ur.
Proof.
  intros Hel H.
  destruct (checkEligibility_Ok _ _ _ _ _ _ Hel)
    as (Hemail & _ & Hdetails & Ht).
  unfold provisionUserAndOrganization in H. rewrite Hemail in H.
  destruct (negb (isSingleOrganization env) && isInstanceSSOLogin
            && negb (JS.truthy organizationId)).
  - rewrite Hdetails in H.
    destruct (usersService.findByEmail (db w) (email ur) None [])
      as [[u0 l]|] eqn:Hfind; cbn [option_map fst] in H.
    + apply bind_inv_Ok in H as ([] & w1 & _ & H).
      apply bind_inv_Ok in H as (og' & w2 & _ & H).
      inversion H; subst.
      exact (findByEmail_email _ _ _ _ _ _ Hfind).
    + destruct (enableSignUp o && el_allowPersonalWorkspace el);
        [|discriminate].
      unfold organizationService.create, usersService.create,
        organizationUsersService.create, freshId, bind, update, ret in H.
      cbn in H. inversion H; subst. cbn.
      destruct (email ur); [reflexivity|discriminate].
  - apply bind_inv_Ok in H as (u' & w1 & Hfind & H).
    assert (u' = u) as -> by now inversion H.
    rewrite <- Hemail in Ht |- *.
    destruct (enableSignUp o); cbn [negb] in Hfind.
    + exact (findOrCreateUser_email _ _ _ _ _ Hfind Ht).
    + rewrite Hemail. exact (findAndActivateUser_email _ _ _ _ _ Hfind).
Qed.

(** A session is issued only for the email the identity provider
    returned: the email of a successful [signIn]'s payload is the email
    of the normalized identity of the exchange. *)
Theorem signIn_session_email env r configId ssoType cookies w p w' :
  signIn env r configId ssoType cookies w = (Ok p, w') ->
  exists c o ur w1,
    resolveTenant env r configId ssoType w = (Ok (Some c, Some o), w)
    /\ exchangeIdentity env (sso c) (sso_configs c) (token r) configId
         cookies w = (Ok (Some ur), w1)
    /\ email ur = Some (Payload.email p).
Proof.
  intros H.
  apply signIn_Ok_inv in H
    as (c & o & ur & w1 & el & u & og & Hres & Hex & Hel & Hprov & _ & Hp).
  exists c, o, ur, w1. split; [exact Hres|]. split; [exact Hex|].
  pose proof (provisionUserAndOrganization_email _ _ _ _ _ _ _ _ _ _
                Hel Hprov) as He.
  unfold generateLoginResultPayload, query in Hp. inversion Hp. cbn.
  now symmetry.
Qed.

(** ** Identity exchange *)

(** With the [openid] tag the license gate comes first: without the OIDC
    license [signIn] throws Unauthorized whatever the cookies are; with
    it and no [cookies] object, reading the code verifier is a TypeError.
    In both cases no provider is called and nothing is written. *)
Theorem signIn_openid_gate env r configId ssoType cookies w c o :
  resolveTenant env r configId ssoType w = (Ok (Some c, Some o), w) ->
  sso c = Some "openid" ->
  signIn env r configId ssoType cookies w
  = match License_oidc env, cookies with
    | false, _ =>
        (Throw (UnauthorizedException (Some "OIDC login disabled")), w)
    | true, None =>
        (Throw (TypeError
                  "Cannot read properties of undefined (reading 'oidc_code_verifier')"),
         w)
    | true, Some _ => signIn env r configId ssoType cookies w
    end.
Proof.
  intros Hres Hsso.
  destruct (License_oidc env) eqn:Hlic; [destruct cookies; [reflexivity|]|];
    rewrite (signIn_resolved _ _ _ _ _ _ _ _ Hres);
    unfold signInResolved; apply bind_Throw;
    unfold exchangeIdentity; rewrite Hsso, Hlic; reflexivity.
Qed.

(** ** Eligibility *)

(** A user that is neither archived nor a super-administrator, or no
    user at all, with an email the organization's allow-list rejects:
    [signIn] throws Unauthorized for the domain and writes nothing. *)
Theorem signIn_domain_verification_failed
    env r configId ssoType cookies w c o ur w1 :
  resolveTenant env r configId ssoType w = (Ok (Some c, Some o), w) ->
  exchangeIdentity env (sso c) (sso_configs c) (token r) configId cookies w
  = (Ok (Some ur), w1) ->
  JS.truthy (userSSOId ur) = true ->
  JS.truthy (email ur) = true ->
  match usersService.findByEmail (db w) (email ur) None [] with
  | Some (u, _) => user_status u <> UserArchived /\ user_superAdmin u = false
  | None => True
  end ->
  isValidDomain (email ur) (domain o) = false ->
  signIn env r configId ssoType cookies w
  = (Throw (UnauthorizedException
              (Some "You cannot sign in using the mail id - Domain verification failed")),
     w1)
  /\ db w1 = db w.
Proof.
  intros Hres Hex Hid Hemail Huser Hdomain.
  pose proof (exchangeIdentity_db _ _ _ _ _ _ _ _ _ Hex) as Hdb.
  split; [|exact Hdb].
  rewrite (signIn_resolved _ _ _ _ _ _ _ _ Hres). unfold signInResolved.
  erewrite bind_Ok by exact Hex. apply bind_Throw.
  unfold checkEligibility, bind, query, throw.
  rewrite Hid, Hemail. cbn [negb andb]. rewrite Hdb, Hdomain.
  destruct (usersService.findByEmail (db w) (email ur) None [])
    as [[u l]|]; cbn [option_map fst isSuperAdmin].
  - destruct Huser as [Hst ->]. now destruct (user_status u).
  - reflexivity.
Qed.

(** ** The common login page *)

(** An email no user has, on the common login page, when the instance
    disables sign-up or does not allow a personal workspace: [signIn]
    throws Unauthorized and writes nothing. *)
Theorem signIn_unknown_user_no_signup
    env r configId ssoType cookies w c o ur w1 el :
  resolveTenant env r configId ssoType w = (Ok (Some c, Some o), w) ->
  commonPage env r configId ssoType = true ->
  exchangeIdentity env (sso c) (sso_configs c) (token r) configId cookies w
  = (Ok ur, w1) ->
  checkEligibility env ur (domain o) w1 = (Ok el, w1) ->
  el_userDetails el = None ->
  enableSignUp o && el_allowPersonalWorkspace el = false ->
  signIn env r configId ssoType cookies w
  = (Throw (UnauthorizedException
              (Some "User does not exist in the workspace")), w1)
  /\ db w1 = db w.
Proof.
  intros Hres Hpage Hex Hel Hu Hno.
  split; [|exact (exchangeIdentity_db _ _ _ _ _ _ _ _ _ Hex)].
  refine (signIn_provision_Throw _ _ _ _ _ _ _ _ _ _ _ _ w1 Hres Hex Hel _).
  unfold provisionUserAndOrganization.
  fold (commonPage env r configId ssoType).
  now rewrite Hpage, Hu, Hno.
Qed.

Lemma provision_existing_user env r configId ssoType o el u w :
  commonPage env r configId ssoType = true ->
  el_userDetails el = Some u ->
  provisionUserAndOrganization env o (organizationId r)
    (negb (JS.truthy configId) && JS.truthy ssoType) el w
  = bind (selectOrganization u (el_allowPersonalWorkspace el))
      (fun organizationDetails => ret (u, organizationDetails))
      (mkWorld (selectionStore u (db w)) (exchanges w)).
Proof.
  intros Hpage Hu. unfold provisionUserAndOrganization, selectionStore.
  fold (commonPage env r configId ssoType). rewrite Hpage, Hu.
  destruct (JS.truthy (user_invitationToken u)); cbn [when].
  - reflexivity.
  - unfold bind at 1, ret at 1. now rewrite world_eta.
Qed.

(** An existing user, not a super-administrator, for whom no
    organization has SSO login support, on an instance that does not
    allow a personal workspace: [signIn] throws Unauthorized and the
    database is as before, also when the user had a pending invitation
    token, whose clearing is rolled back. *)
Theorem signIn_no_candidate_organization
    env r configId ssoType cookies w c o ur w1 el u :
  resolveTenant env r configId ssoType w = (Ok (Some c, Some o), w) ->
  commonPage env r configId ssoType = true ->
  exchangeIdentity env (sso c) (sso_configs c) (token r) configId cookies w
  = (Ok ur, w1) ->
  checkEligibility env ur (domain o) w1 = (Ok el, w1) ->
  el_userDetails el = Some u ->
  user_superAdmin u = false ->
  organizationService.findOrganizationWithLoginSupport
    (selectionStore u (db w)) u = [] ->
  el_allowPersonalWorkspace el = false ->
  signIn env r configId ssoType cookies w
  = (Throw (UnauthorizedException
              (Some "User not included in any workspace")), w1)
  /\ db w1 = db w.
Proof.
  intros Hres Hpage Hex Hel Hu Hsuper Hnone Hallow.
  pose proof (exchangeIdentity_db _ _ _ _ _ _ _ _ _ Hex) as Hdb.
  split; [|exact Hdb].
  refine (signIn_provision_Throw _ _ _ _ _ _ _ _ _ _ _ _
            (mkWorld (selectionStore u (db w1)) (exchanges w1))
            Hres Hex Hel _).
  rewrite (provision_existing_user _ _ _ _ _ _ _ _ Hpage Hu).
  apply bind_Throw.
  unfold selectOrganization. cbn [isSuperAdmin]. rewrite Hsuper.
  cbn [negb]. unfold bind, query. cbn [db]. rewrite Hdb, Hnone, Hallow.
  reflexivity.
Qed.

(** A super-administrator signing in from the common login page of a
    system without any organization: the candidate list holds one
    undefined element and reading its [id] is a TypeError, not one of
    the declared errors; nothing is written. *)
Theorem signIn_super_admin_without_organization
    env r configId ssoType cookies w c o ur w1 el u :
  resolveTenant env r configId ssoType w = (Ok (Some c, Some o), w) ->
  commonPage env r configId ssoType = true ->
  exchangeIdentity env (sso c) (sso_configs c) (token r) configId cookies w
  = (Ok ur, w1) ->
  checkEligibility env ur (domain o) w1 = (Ok el, w1) ->
  el_userDetails el = Some u ->
  user_superAdmin u = true ->
  organizations (db w) = [] ->
  signIn env r configId ssoType cookies w
  = (Throw (TypeError "Cannot read properties of undefined (reading 'id')"),
     w1)
  /\ db w1 = db w.
Proof.
  intros Hres Hpage Hex Hel Hu Hsuper Hnone.
  pose proof (exchangeIdentity_db _ _ _ _ _ _ _ _ _ Hex) as Hdb.
  split; [|exact Hdb].
  refine (signIn_provision_Throw _ _ _ _ _ _ _ _ _ _ _ _
            (mkWorld (selectionStore u (db w1)) (exchanges w1))
            Hres Hex Hel _).
  rewrite (provision_existing_user _ _ _ _ _ _ _ _ Hpage Hu).
  apply bind_Throw.
  unfold selectOrganization. cbn [isSuperAdmin]. rewrite Hsuper.
  cbn [negb]. apply bind_Throw. unfold bind, query. cbn [db].
  assert (Horgs : organizations (selectionStore u (db w1)) = []).
  { unfold selectionStore. rewrite Hdb.
    now destruct (JS.truthy (user_invitationToken u)). }
  unfold organizationService.findOne,
    organizationService.getSingleOrganization.
  rewrite Horgs. reflexivity.
Qed.

(** ** First sign-in from the common login page *)

Lemma split_head sep s : hd_error (JS.split sep s) = Some (beforeFirst sep s).
Proof.
  induction s as [|a s IH]; cbn; [reflexivity|].
  destruct (Ascii.eqb a sep); [reflexivity|].
  destruct (JS.split sep s) as [|p ps]; cbn in *; [discriminate|].
  now inversion IH.
Qed.

(** [beforeFirst c s] precedes the first [c] of [s]. *)
Lemma beforeFirst_decompose c s :
  occurs c (beforeFirst c s) = false
  /\ (if occurs c s
      then exists rest, s = (beforeFirst c s ++ String c rest)%string
      else beforeFirst c s = s).
Proof.
  induction s as [|a s [IH1 IH2]]; cbn; [now split|].
  destruct (Ascii.eqb a c) eqn:Ha; cbn.
  - split; [reflexivity|]. apply Ascii.eqb_eq in Ha. subst. now exists s.
  - rewrite Ha. cbn. split; [exact IH1|].
    destruct (occurs c s).
    + destruct IH2 as [rest Hrest]. exists rest. now rewrite <- Hrest.
    + now rewrite IH2.
Qed.

Lemma strictEq_refl x : JS.strictEq (Some x) (Some x) = true.
Proof. apply String.eqb_refl. Qed.

(** The first sign-in of an email from the common login page, when it
    succeeds, creates exactly one user, one organization named
    "Untitled workspace" and one membership of that user in that
    organization; the organization is the user's default organization,
    the user is put in the groups all_users and admin of it, and the
    session is the user's session for it, with the admin flag set. *)
Theorem signIn_first_sign_in env r configId ssoType cookies w p w' :
  commonPage env r configId ssoType = true ->
  signIn env r configId ssoType cookies w = (Ok p, w') ->
  usersService.findByEmail (db w) (Some (Payload.email p)) None [] = None ->
  exists u og m,
    users (db w') = users (db w) ++ [u]
    /\ organizations (db w') = organizations (db w) ++ [og]
    /\ organizationUsers (db w') = organizationUsers (db w) ++ [m]
    /\ groupUsers (db w')
       = groupUsers (db w)
         ++ [mkGroupUser (user_id u) (org_id og) "all_users";
             mkGroupUser (user_id u) (org_id og) "admin"]
    /\ user_id u = Payload.id p
    /\ user_email u = Payload.email p
    /\ user_defaultOrganizationId u = org_id og
    /\ org_id og = Payload.organization_id p
    /\ org_name og = Some "Untitled workspace"
    /\ Payload.organization p = Some "Untitled workspace"
    /\ ou_userId m = user_id u
    /\ ou_organizationId m = org_id og
    /\ Payload.admin p = true.
Proof.
  intros Hpage H Hnew.
  apply signIn_Ok_inv in H
    as (c & o & ur & w1 & el & u & og & Hres & Hex & Hel & Hprov & _ & Hp).
  pose proof (exchangeIdentity_db _ _ _ _ _ _ _ _ _ Hex) as Hdb.
  pose proof (provisionUserAndOrganization_email _ _ _ _ _ _ _ _ _ _
                Hel Hprov) as He.
  destruct (checkEligibility_Ok _ _ _ _ _ _ Hel) as (_ & _ & Hdetails & _).
  assert (Hpe : Payload.email p = user_email u)
    by (unfold generateLoginResultPayload, query in Hp; now inversion Hp).
  rewrite Hpe, He, <- Hdb in Hnew. rewrite Hnew in Hdetails.
  unfold provisionUserAndOrganization in Hprov.
  fold (commonPage env r configId ssoType) in Hprov.
  rewrite Hpage, Hdetails in Hprov.
  destruct (enableSignUp o && el_allowPersonalWorkspace el); [|discriminate].
  unfold organizationService.create, usersService.create,
    organizationUsersService.create, freshId, bind, update, ret in Hprov.
  cbn in Hprov. inversion Hprov; subst u og w'; clear Hprov.
  unfold generateLoginResultPayload, query in Hp.
  inversion Hp; subst p; clear Hp. cbn. rewrite Hdb.
  do 3 eexists. repeat split.
  unfold usersService.hasGroup. cbn. rewrite existsb_app. cbn.
  rewrite !String.eqb_refl. cbn. now rewrite !orb_true_r.
Qed.

(** The first name of a user created at the first sign-in from the
    common login page: the one the identity provider gave, or, when it
    gave none, the part of the email before its first '@'. *)
Theorem signIn_default_first_name env r configId ssoType cookies w p w' :
  commonPage env r configId ssoType = true ->
  signIn env r configId ssoType cookies w = (Ok p, w') ->
  usersService.findByEmail (db w) (Some (Payload.email p)) None [] = None ->
  exists c o ur w1,
    resolveTenant env r configId ssoType w = (Ok (Some c, Some o), w)
    /\ exchangeIdentity env (sso c) (sso_configs c) (token r) configId
         cookies w = (Ok (Some ur), w1)
    /\ Payload.first_name p
       = (if JS.truthy (firstName ur) then firstName ur
          else Some (beforeFirst "@" (Payload.email p))).
Proof.
  intros Hpage H Hnew.
  apply signIn_Ok_inv in H
    as (c & o & ur & w1 & el & u & og & Hres & Hex & Hel & Hprov & _ & Hp).
  exists c, o, ur, w1. split; [exact Hres|]. split; [exact Hex|].
  pose proof (exchangeIdentity_db _ _ _ _ _ _ _ _ _ Hex) as Hdb.
  pose proof (provisionUserAndOrganization_email _ _ _ _ _ _ _ _ _ _
                Hel Hprov) as He.
  destruct (checkEligibility_Ok _ _ _ _ _ _ Hel) as (_ & _ & Hdetails & _).
  assert (Hpe : Payload.email p = user_email u)
    by (unfold generateLoginResultPayload, query in Hp; now inversion Hp).
  rewrite Hpe, He, <- Hdb in Hnew. rewrite Hnew in Hdetails.
  assert (Hfirst : firstName (el_userResponse el)
                   = if JS.truthy (firstName ur) then firstName ur
                     else Some (beforeFirst "@" (user_email u))).
  { revert Hel. unfold checkEligibility, bind, query, ret, throw.
    rewrite <- He.
    repeat match goal with
           | |- context [if ?b then _ else _] => destruct b eqn:?
           end;
      intros H; inversion H; subst; cbn; try reflexivity;
      try discriminate; try apply split_head. }
  unfold provisionUserAndOrganization in Hprov.
  fold (commonPage env r configId ssoType) in Hprov.
  rewrite Hpage, Hdetails in Hprov.
  destruct (enableSignUp o && el_allowPersonalWorkspace el); [|discriminate].
  unfold organizationService.create, usersService.create,
    organizationUsersService.create, freshId, bind, update, ret in Hprov.
  cbn in Hprov. inversion Hprov; subst u og w'; clear Hprov.
  unfold generateLoginResultPayload, query in Hp.
  inversion Hp; subst p; clear Hp. cbn in *. exact Hfirst.
Qed.

(** ** Direct login of a member *)

Lemma memberLogin_run (organizationUser : OrganizationUser) w :
  when (negb (MembershipStatus_eqb (ou_status organizationUser) Active))
    (organizationUsersService.activate (Some (ou_id organizationUser))) w
  = (Ok tt,
     mkWorld (memberLoginStore organizationUser (db w)) (exchanges w)).
Proof.
  unfold memberLoginStore.
  destruct (MembershipStatus_eqb (ou_status organizationUser) Active);
    cbn [negb when].
  - unfold ret. now rewrite world_eta.
  - reflexivity.
Qed.

(** A direct login by an email that has a membership in the
    organization, whether or not the organization allows sign-up,
    creates nothing: the membership the lookup finds first is active
    afterwards, every other row is untouched, and the session is the
    user's session for the organization the tenant resolved to. *)
Theorem signIn_member_direct_login
    env r configId ssoType cookies w c o ur w1 el u organizationUser rest :
  resolveTenant env r configId ssoType w = (Ok (Some c, Some o), w) ->
  commonPage env r configId ssoType = false ->
  exchangeIdentity env (sso c) (sso_configs c) (token r) configId cookies w
  = (Ok (Some ur), w1) ->
  checkEligibility env (Some ur) (domain o) w1 = (Ok el, w1) ->
  usersService.findByEmail (db w) (email ur) (org_id o) [Active; Invited]
  = Some (u, organizationUser :: rest) ->
  licenseViolation env (memberLoginStore organizationUser (db w)) = None ->
  signIn env r configId ssoType cookies w
  = generateLoginResultPayload env u o
      (negb (JS.truthy configId) && JS.truthy ssoType)
      (mkWorld (memberLoginStore organizationUser (db w)) (exchanges w1)).
Proof.
  intros Hres Hdirect Hex Hel Hfind Hlic.
  pose proof (exchangeIdentity_db _ _ _ _ _ _ _ _ _ Hex) as Hdb.
  destruct (checkEligibility_Ok _ _ _ _ _ _ Hel) as (Hemail & _).
  rewrite <- Hdb in Hfind, Hlic |- *.
  apply (signIn_provision_Ok env r configId ssoType cookies w c o (Some ur)
           w1 el u o
           (mkWorld (memberLoginStore organizationUser (db w1))
              (exchanges w1)) Hres Hex Hel); [|exact Hlic].
  unfold provisionUserAndOrganization.
  fold (commonPage env r configId ssoType). rewrite Hdirect.
  destruct (enableSignUp o); cbn [negb].
  - unfold findOrCreateUser. rewrite Hemail.
    unfold bind at 1 2, query at 1. rewrite Hfind. cbn [hd_error].
    unfold bind. now rewrite memberLogin_run.
  - unfold findAndActivateUser. rewrite Hemail.
    unfold bind at 1 2, query at 1. rewrite Hfind. cbn [hd_error].
    unfold bind. now rewrite memberLogin_run.
Qed.

(** ** Running the helpers again *)

Lemma activateRow_keys i m :
  ou_id (organizationUsersService.activateRow i m) = ou_id m
  /\ ou_userId (organizationUsersService.activateRow i m) = ou_userId m
  /\ ou_organizationId (organizationUsersService.activateRow i m)
     = ou_organizationId m.
Proof.
  unfold organizationUsersService.activateRow.
  now destruct (JS.strictEq (Some (ou_id m)) i).
Qed.

Lemma filter_map_commute {A} (p : A -> bool) (f : A -> A) l :
  (forall x, p (f x) = p x) -> filter p (map f l) = map f (filter p l).
Proof.
  intros Hp. induction l as [|x l IH]; cbn; [reflexivity|].
  rewrite Hp. destruct (p x); cbn; now rewrite IH.
Qed.

(** Activating rows does not change which memberships a lookup among
    both statuses finds, only their status. *)
Lemma membershipsIn_activate i s userId organizationId :
  usersService.membershipsIn
    (mapOrganizationUsers (organizationUsersService.activateRow i) s)
    userId organizationId [Active; Invited]
  = map (organizationUsersService.activateRow i)
      (usersService.membershipsIn s userId organizationId [Active; Invited]).
Proof.
  unfold usersService.membershipsIn. cbn [organizationUsers mapOrganizationUsers].
  apply filter_map_commute. intros m.
  destruct (activateRow_keys i m) as (_ & -> & ->).
  now rewrite !statuses_all.
Qed.

Lemma find_pointwise {A} (p q : A -> bool) l :
  (forall x, p x = q x) -> find p l = find q l.
Proof.
  intros H. induction l as [|x l IH]; cbn; [reflexivity|].
  now rewrite H, IH.
Qed.

Lemma findByEmail_activate i s e organizationId :
  usersService.findByEmail
    (mapOrganizationUsers (organizationUsersService.activateRow i) s)
    e organizationId [Active; Invited]
  = option_map
      (fun found =>
         (fst found,
          map (organizationUsersService.activateRow i) (snd found)))
      (usersService.findByEmail s e organizationId [Active; Invited]).
Proof.
  unfold usersService.findByEmail.
  destruct organizationId as [o|];
    [destruct (JS.nonEmpty o)|];
    change (users (mapOrganizationUsers
                     (organizationUsersService.activateRow i) s))
      with (users s).
  - erewrite find_pointwise.
    2:{ intros u. rewrite membershipsIn_activate, length_map. reflexivity. }
    destruct (find _ (users s)) as [u|]; cbn [option_map fst snd];
      [|reflexivity].
    now rewrite membershipsIn_activate.
  - now destruct (find _ (users s)).
  - now destruct (find _ (users s)).
Qed.

(** [findAndActivateUser] is idempotent: once it has succeeded, running
    it again for the same email and organization returns the same user
    and writes nothing. *)
Theorem findAndActivateUser_idempotent e organizationId w u w1 :
  findAndActivateUser e organizationId w = (Ok u, w1) ->
  findAndActivateUser e organizationId w1 = (Ok u, w1).
Proof.
  unfold findAndActivateUser, bind, query.
  destruct (usersService.findByEmail (db w) e organizationId
              [Active; Invited]) as [[u0 [|m rest]]|] eqn:Hfind;
    cbn [hd_error]; try discriminate.
  rewrite memberLogin_run. intros H. inversion H; subst u0 w1; clear H.
  cbn [db]. unfold memberLoginStore.
  destruct (MembershipStatus_eqb (ou_status m) Active) eqn:Hst.
  - rewrite Hfind. cbn [hd_error]. rewrite memberLogin_run.
    unfold memberLoginStore. rewrite Hst. now rewrite world_eta.
  - rewrite findByEmail_activate, Hfind. cbn [option_map fst snd map hd_error].
    rewrite memberLogin_run. unfold memberLoginStore.
    rewrite activateRow_self. reflexivity.
Qed.

Lemma find_split {A} (f : A -> bool) l x :
  find f l = Some x ->
  exists l1 l2, l = l1 ++ x :: l2 /\ forall y, In y l1 -> f y = false.
Proof.
  induction l as [|a l IH]; cbn; [discriminate|].
  destruct (f a) eqn:Ha.
  - intros H; inversion H; subst. exists [], l. split; [reflexivity|].
    intros y [].
  - intros H. destruct (IH H) as (l1 & l2 & -> & Hl1).
    exists (a :: l1), l2. split; [reflexivity|].
    intros y [<-|Hy]; [exact Ha|now apply Hl1].
Qed.

Lemma find_first {A} (f : A -> bool) l1 x l2 :
  (forall y, In y l1 -> f y = false) -> f x = true ->
  find f (l1 ++ x :: l2) = Some x.
Proof.
  intros Hl1 Hx. induction l1 as [|a l1 IH]; cbn.
  - now rewrite Hx.
  - rewrite (Hl1 a (or_introl eq_refl)). apply IH.
    intros y Hy. apply Hl1. now right.
Qed.

Lemma findByEmail_ext s s' e organizationId statuses :
  users s' = users s ->
  organizationUsers s' = organizationUsers s ->
  usersService.findByEmail s' e organizationId statuses
  = usersService.findByEmail s e organizationId statuses.
Proof.
  intros Hu Hm. unfold usersService.findByEmail, usersService.membershipsIn.
  now rewrite Hu, Hm.
Qed.

(** After [findOrCreateUser] has succeeded, the lookup of line 64 finds
    the user it returned, with a membership. *)
Lemma findOrCreateUser_then_found ur org w u w1 :
  JS.truthy (org_id org) = true ->
  JS.truthy (email ur) = true ->
  findOrCreateUser ur org w = (Ok u, w1) ->
  exists m rest,
    usersService.findByEmail (db w1) (email ur) (org_id org)
      [Active; Invited]
    = Some (u, m :: rest).
Proof.
  intros Hid Hemail H.
  pose proof (findOrCreateUser_email _ _ _ _ _ H Hemail) as Hue.
  pose proof (findOrCreateUser_cases ur org w Hid) as Hc.
  destruct (usersService.findByEmail (db w) (email ur) (org_id org)
              [Active; Invited]) as [[u0 [|m rest]]|] eqn:Hscoped.
  - contradiction.
  - destruct Hc as (w' & Heq & Husers & Hrows & _).
    rewrite Heq in H. inversion H; subst u0 w'; clear H.
    destruct (MembershipStatus_eqb (ou_status m) Active).
    + exists m, rest. rewrite <- Hscoped. now apply findByEmail_ext.
    + eexists. eexists.
      rewrite (findByEmail_ext
                 (mapOrganizationUsers
                    (organizationUsersService.activateRow (Some (ou_id m)))
                    (db w)) (db w1)) by (cbn; assumption).
      rewrite findByEmail_activate, Hscoped. reflexivity.
  - destruct Hc as (user & m & w' & Heq & Hrows & Hmu & Hmo & _ & Hu).
    rewrite Heq in H. inversion H; subst user w'; clear H.
    apply truthy_Some in Hid as (i & Hi & Hne).
    assert (Hmember :
      negb (Nat.eqb (length (usersService.membershipsIn (db w1) (user_id u)
                               i [Active; Invited])) 0) = true).
    { assert (Hin : In m (usersService.membershipsIn (db w1) (user_id u) i
                            [Active; Invited])).
      { unfold usersService.membershipsIn. apply filter_In. split.
        - rewrite Hrows. apply in_or_app. right. now left.
        - rewrite Hmu, Hmo, Hi, String.eqb_refl, strictEq_refl, statuses_all.
          reflexivity. }
      destruct (usersService.membershipsIn (db w1) (user_id u) i
                  [Active; Invited]); [contradiction|reflexivity]. }
    assert (Hfound :
      find (fun x =>
              JS.strictEq (Some (user_email x)) (email ur)
              && negb (Nat.eqb
                   (length (usersService.membershipsIn (db w1) (user_id x) i
                              [Active; Invited])) 0))
           (users (db w1)) = Some u).
    { rewrite findByEmail_unscoped in Hu.
      destruct (find (fun x => JS.strictEq (Some (user_email x)) (email ur))
                  (users (db w))) as [u0|] eqn:Hany; cbn [option_map] in Hu.
      - destruct Hu as [-> Husers]. rewrite Husers.
        destruct (find_split _ _ _ Hany) as (l1 & l2 & -> & Hl1).
        apply find_first.
        + intros y Hy. now rewrite (Hl1 y Hy).
        + rewrite Hmember, <- Hue, strictEq_refl. reflexivity.
      - destruct Hu as [Husers _]. rewrite Husers.
        apply find_first.
        + intros y Hy. now rewrite (find_none _ _ Hany y Hy).
        + rewrite Hmember, <- Hue, strictEq_refl. reflexivity. }
    unfold usersService.findByEmail. rewrite Hi, Hne, Hfound.
    cbn [option_map].
    destruct (usersService.membershipsIn (db w1) (user_id u) i
                [Active; Invited]) as [|m' rest'] eqn:Hl;
      [discriminate|].
    now exists m', rest'.
Qed.

(** Running [findOrCreateUser] a second time for the same identity and
    organization returns the same user and creates nothing, and after it
    the user has an active membership in the organization: a membership
    the first run created inactive is activated by the second. *)
Theorem findOrCreateUser_again ur org w u w1 :
  JS.truthy (org_id org) = true ->
  JS.truthy (email ur) = true ->
  findOrCreateUser ur org w = (Ok u, w1) ->
  exists w2 m,
    findOrCreateUser ur org w1 = (Ok u, w2)
    /\ users (db w2) = users (db w1)
    /\ length (organizationUsers (db w2)) = length (organizationUsers (db w1))
    /\ In m (organizationUsers (db w2))
    /\ ou_userId m = user_id u
    /\ ou_organizationId m = org_id org
    /\ ou_status m = Active.
Proof.
  intros Hid Hemail H.
  destruct (findOrCreateUser_then_found _ _ _ _ _ Hid Hemail H)
    as (m & rest & Hfound).
  pose proof (findOrCreateUser_cases ur org w1 Hid) as Hc.
  rewrite Hfound in Hc. destruct Hc as (w2 & Heq & Husers & Hrows & Hin).
  destruct (findByEmail_Some_membership _ _ _ _ _ _ Hid Hfound)
    as (m' & rest' & Hl & _ & Hmu & Hmo).
  inversion Hl; subst m' rest'.
  exists w2. eexists. split; [exact Heq|]. split; [exact Husers|].
  split.
  - rewrite Hrows. destruct (MembershipStatus_eqb (ou_status m) Active);
      [reflexivity|apply length_map].
  - split; [exact Hin|]. cbn. auto.
Qed.

(** ** What a sign-in never undoes *)

Section ExtendsBy.

Context {A : Type} (K : A -> A -> Prop).
Hypothesis K_refl : forall x, K x x.
Hypothesis K_trans : forall x y z, K x y -> K y z -> K x z.

Lemma Forall2_same (l : list A) : Forall2 K l l.
Proof. induction l; constructor; auto. Qed.

Lemma Forall2_chain (l1 l2 l3 : list A) :
  Forall2 K l1 l2 -> Forall2 K l2 l3 -> Forall2 K l1 l3.
Proof.
  intros H12. revert l3.
  induction H12 as [|x y l1 l2 Hxy _ IH]; intros l3 H23;
    inversion H23; subst; constructor; eauto.
Qed.

Lemma extendsBy_refl (l : list A) : extendsBy K l l.
Proof.
  exists l, []. split; [now rewrite app_nil_r|apply Forall2_same].
Qed.

Lemma extendsBy_trans (l1 l2 l3 : list A) :
  extendsBy K l1 l2 -> extendsBy K l2 l3 -> extendsBy K l1 l3.
Proof.
  intros (k1 & e1 & -> & H1) (k2 & e2 & -> & H2).
  apply Forall2_app_inv_l in H2 as (k2a & k2b & Ha & _ & ->).
  exists k2a, (k2b ++ e2). split; [now rewrite app_assoc|].
  exact (Forall2_chain _ _ _ H1 Ha).
Qed.

Lemma extendsBy_app (l extra : list A) : extendsBy K l (l ++ extra).
Proof. exists l, extra. split; [reflexivity|apply Forall2_same]. Qed.

Lemma extendsBy_map (f : A -> A) (l : list A) :
  (forall x, K x (f x)) -> extendsBy K l (map f l).
Proof.
  intros Hf. exists (map f l), []. split; [now rewrite app_nil_r|].
  induction l; constructor; auto.
Qed.

End ExtendsBy.

Lemma userKept_refl u : userKept u u.
Proof. unfold userKept. auto 10. Qed.

Lemma userKept_trans u1 u2 u3 :
  userKept u1 u2 -> userKept u2 u3 -> userKept u1 u3.
Proof.
  unfold userKept.
  intros (? & ? & ? & ? & ? & ? & ? & H12) (? & ? & ? & ? & ? & ? & ? & H23).
  repeat split; try congruence.
  destruct H23 as [H23|H23]; [|now right].
  destruct H12 as [H12|H12]; [left|right]; congruence.
Qed.

Lemma rowKept_refl m : rowKept m m.
Proof. unfold rowKept. auto. Qed.

Lemma rowKept_trans m1 m2 m3 : rowKept m1 m2 -> rowKept m2 m3 -> rowKept m1 m3.
Proof.
  unfold rowKept. intros (? & ? & ? & H12) (? & ? & ? & H23).
  repeat split; try congruence.
  destruct H23 as [H23|H23]; [|now right].
  destruct H12 as [H12|H12]; [left|right]; congruence.
Qed.

Lemma evolves_refl s : evolves s s.
Proof.
  repeat split.
  - apply extendsBy_refl, userKept_refl.
  - now apply extendsBy_refl.
  - apply extendsBy_refl, rowKept_refl.
Qed.

Lemma evolves_trans s1 s2 s3 : evolves s1 s2 -> evolves s2 s3 -> evolves s1 s3.
Proof.
  intros (Hu1 & Ho1 & Hm1) (Hu2 & Ho2 & Hm2). repeat split.
  - exact (extendsBy_trans _ userKept_trans _ _ _ Hu1 Hu2).
  - refine (extendsBy_trans _ _ _ _ _ Ho1 Ho2). intros; congruence.
  - exact (extendsBy_trans _ rowKept_trans _ _ _ Hm1 Hm2).
Qed.

Lemma evolvesW_refl w : evolvesW w w.
Proof. apply evolves_refl. Qed.

Lemma evolvesW_trans w1 w2 w3 :
  evolvesW w1 w2 -> evolvesW w2 w3 -> evolvesW w1 w3.
Proof. apply evolves_trans. Qed.

Lemma evolves_tables s s' :
  extendsBy userKept (users s) (users s') ->
  extendsBy eq (organizations s) (organizations s') ->
  extendsBy rowKept (organizationUsers s) (organizationUsers s') ->
  evolves s s'.
Proof. now repeat split. Qed.

Lemma evolves_addUser u s : evolves s (addUser u s).
Proof.
  apply evolves_tables; cbn.
  - apply extendsBy_app, userKept_refl.
  - now apply extendsBy_refl.
  - apply extendsBy_refl, rowKept_refl.
Qed.

Lemma evolves_addOrganization o s : evolves s (addOrganization o s).
Proof.
  apply evolves_tables; cbn.
  - apply extendsBy_refl, userKept_refl.
  - now apply extendsBy_app.
  - apply extendsBy_refl, rowKept_refl.
Qed.

Lemma evolves_addOrganizationUser m s : evolves s (addOrganizationUser m s).
Proof.
  apply evolves_tables; cbn.
  - apply extendsBy_refl, userKept_refl.
  - now apply extendsBy_refl.
  - apply extendsBy_app, rowKept_refl.
Qed.

Lemma evolves_addGroupUsers g s : evolves s (addGroupUsers g s).
Proof. exact (evolves_refl s). Qed.

Lemma evolves_clearInvitationToken id s :
  evolves s (mapUsers (usersService.clearInvitationToken id) s).
Proof.
  apply evolves_tables; cbn.
  - apply extendsBy_map. intros u.
    unfold usersService.clearInvitationToken, userKept.
    destruct (String.eqb (user_id u) id); cbn; auto 10.
  - now apply extendsBy_refl.
  - apply extendsBy_refl, rowKept_refl.
Qed.

Lemma evolves_activate i s :
  evolves s (mapOrganizationUsers (organizationUsersService.activateRow i) s).
Proof.
  apply evolves_tables; cbn.
  - apply extendsBy_refl, userKept_refl.
  - now apply extendsBy_refl.
  - apply extendsBy_map. intros m.
    unfold organizationUsersService.activateRow, rowKept.
    destruct (JS.strictEq (Some (ou_id m)) i); cbn; auto.
Qed.

Create HintDb evolves.
#[local] Hint Resolve evolves_addUser evolves_addOrganization
  evolves_addOrganizationUser evolves_addGroupUsers
  evolves_clearInvitationToken evolves_activate evolves_refl : evolves.

Lemma movesBy_exchange provider token outcome :
  movesBy evolvesW (exchange provider token outcome).
Proof. intros w res w' H. inversion H. exact (evolves_refl (db w)). Qed.

Ltac evolving :=
  repeat first
    [ moves_step evolvesW_refl evolvesW_trans
    | apply movesBy_exchange
    | apply movesBy_update; intro; unfold evolvesW; cbn [db];
      auto with evolves
    | apply movesBy_freshId;
      let w := fresh "w" in intro w; exact (evolves_refl (db w))
    | apply movesBy_dbTransactionWrap;
      [let w := fresh "w" in intros w ? ?; exact (evolves_refl (db w))|] ].

Lemma signIn_evolves env r configId ssoType cookies :
  movesBy evolvesW (signIn env r configId ssoType cookies).
Proof.
  unfold signIn, resolveTenant, exchangeIdentity, checkEligibility,
    generateLoginResultPayload, provision, provisionUserAndOrganization,
    selectOrganization, findAndActivateUser, findOrCreateUser,
    usersService.findOrCreateByEmail, usersService.create,
    organizationService.create, organizationUsersService.create,
    organizationUsersService.activate,
    usersService.updateUser_invitationToken_null.
  evolving.
Qed.

(** Whatever its outcome, a call of [signIn] removes no row and changes
    no organization.  Every user that existed still exists, with the
    same email and the same status, so an archived user stays archived,
    and at most the invitation token cleared; every membership that
    existed still links the same user and organization, and its status
    is the same or has moved to active, never back to invited. *)
Theorem signIn_keeps_rows env r configId ssoType cookies w :
  let s' := db (snd (signIn env r configId ssoType cookies w)) in
  extendsBy userKept (users (db w)) (users s')
  /\ extendsBy eq (organizations (db w)) (organizations s')
  /\ extendsBy rowKept (organizationUsers (db w)) (organizationUsers s').
Proof.
  cbv zeta.
  destruct (signIn env r configId ssoType cookies w) as [res w'] eqn:H.
  exact (signIn_evolves _ _ _ _ _ _ _ _ H).
Qed.

(** ** The rows behind a session *)

Lemma extendsBy_In {A} (K : A -> A -> Prop) l l' x :
  extendsBy K l l' -> In x l -> exists x', In x' l' /\ K x x'.
Proof.
  intros (kept & extra & -> & H) Hx.
  induction H as [|a b l kept Hab _ IH]; [contradiction|].
  destruct Hx as [<-|Hx].
  - exists b. split; [now left|exact Hab].
  - destruct (IH Hx) as (x' & Hin & Hk). exists x'. split; [now right|exact Hk].
Qed.

Lemma evolves_user s s' u :
  evolves s s' -> In u (users s) ->
  exists u',
    In u' (users s') /\ user_id u' = user_id u
    /\ user_email u' = user_email u.
Proof.
  intros (Hu & _) Hin.
  destruct (extendsBy_In _ _ _ _ Hu Hin) as (u' & Hin' & Hid & Hemail & _).
  now exists u'.
Qed.

Lemma evolves_organization s s' o :
  evolves s s' -> In o (organizations s) -> In o (organizations s').
Proof.
  intros (_ & Ho & _) Hin.
  destruct (extendsBy_In _ _ _ _ Ho Hin) as (o' & Hin' & ->). exact Hin'.
Qed.

Lemma findByEmail_In s e organizationId statuses u l :
  usersService.findByEmail s e organizationId statuses = Some (u, l) ->
  In u (users s).
Proof.
  unfold usersService.findByEmail.
  destruct organizationId as [i|]; [destruct (JS.nonEmpty i)|];
    (destruct (find _ (users s)) as [x|] eqn:Hfind; [|discriminate]);
    intros H; inversion H; subst x; now apply find_some in Hfind.
Qed.

Lemma organizationUsersService_create_evolves u o active :
  movesBy evolvesW (organizationUsersService.create u o active).
Proof. unfold organizationUsersService.create. evolving. Qed.

Lemma organizationUsersService_activate_evolves i :
  movesBy evolvesW (organizationUsersService.activate i).
Proof. unfold organizationUsersService.activate. evolving. Qed.

Lemma selectOrganization_evolves u allow :
  movesBy evolvesW (selectOrganization u allow).
Proof.
  unfold selectOrganization, organizationService.create,
    organizationUsersService.create.
  evolving.
Qed.

Lemma findAndActivateUser_row e organizationId w u w' :
  findAndActivateUser e organizationId w = (Ok u, w') ->
  In u (users (db w')).
Proof.
  unfold findAndActivateUser. intros H.
  apply bind_inv_Ok in H as (found & w1 & Hq & H).
  unfold query in Hq. inversion Hq; subst found w1; clear Hq.
  destruct (usersService.findByEmail (db w) e organizationId
              [Active; Invited]) as [[u0 [|m rest]]|] eqn:Hfind;
    cbn [hd_error] in H; try discriminate.
  apply bind_inv_Ok in H as ([] & w1 & Hrun & H).
  rewrite memberLogin_run in Hrun.
  inversion Hrun; subst w1. inversion H; subst u0 w'. cbn [db].
  apply findByEmail_In in Hfind. unfold memberLoginStore.
  now destruct (MembershipStatus_eqb (ou_status m) Active).
Qed.

Lemma findOrCreateByEmail_row params organizationId w u created w' :
  usersService.findOrCreateByEmail params organizationId w
  = (Ok (u, created), w') ->
  In u (users (db w')).
Proof.
  unfold usersService.findOrCreateByEmail, bind, query.
  destruct (usersService.findByEmail (db w) (email params) None [])
    as [[u0 l]|] eqn:Hfind.
  - apply findByEmail_In in Hfind.
    destruct (usersService.isMemberOf (db w) u0 organizationId);
      unfold usersService.create, bind, update, ret;
      intros H; inversion H; now subst.
  - unfold usersService.create, freshId, bind, update, ret. cbn.
    intros H. inversion H; subst. cbn. apply in_or_app. right. now left.
Qed.

Lemma findOrCreateUser_row ur org w u w' :
  findOrCreateUser ur org w = (Ok u, w') ->
  exists u',
    In u' (users (db w')) /\ user_id u' = user_id u
    /\ user_email u' = user_email u.
Proof.
  unfold findOrCreateUser. intros H.
  apply bind_inv_Ok in H as (existing & w1 & Hq & H).
  unfold query in Hq. inversion Hq; subst existing w1; clear Hq.
  assert (Hcreate :
    forall w2,
      bind
        (usersService.findOrCreateByEmail
           (mkUserResponse None (email ur) (firstName ur) (lastName ur))
           (org_id org))
        (fun x =>
           let (user, newUserCreated) := x in
           bind (when newUserCreated
                   (bind (organizationUsersService.create user org false)
                      (fun _ => ret tt)))
             (fun _ => ret user)) w = (Ok u, w2) ->
      exists u',
        In u' (users (db w2)) /\ user_id u' = user_id u
        /\ user_email u' = user_email u).
  { intros w2 Hb.
    apply bind_inv_Ok in Hb as ([u1 created] & w3 & Hc & Hb).
    apply bind_inv_Ok in Hb as ([] & w4 & Hwhen & Hb).
    inversion Hb; subst u1 w4; clear Hb.
    apply findOrCreateByEmail_row in Hc.
    refine (evolves_user _ _ _ _ Hc).
    revert Hwhen. destruct created; cbn [when].
    - intros Hwhen.
      apply bind_inv_Ok in Hwhen as (m & w5 & Hm & Hwhen).
      inversion Hwhen; subst.
      exact (organizationUsersService_create_evolves _ _ _ _ _ _ Hm).
    - intros Hr; inversion Hr; subst. apply evolves_refl. }
  destruct (usersService.findByEmail (db w) (email ur) (org_id org)
              [Active; Invited]) as [[u0 [|m rest]]|] eqn:Hfind;
    cbn [hd_error] in H.
  - exact (Hcreate _ H).
  - apply bind_inv_Ok in H as ([] & w1 & Hrun & H).
    rewrite memberLogin_run in Hrun.
    inversion Hrun; subst w1. inversion H; subst u0 w'. cbn [db].
    apply findByEmail_In in Hfind. exists u.
    split; [|split; reflexivity]. unfold memberLoginStore.
    now destruct (MembershipStatus_eqb (ou_status m) Active).
  - exact (Hcreate _ H).
Qed.

Lemma selectOrganization_row u allow w og w' :
  selectOrganization u allow w = (Ok og, w') ->
  In og (organizations (db w')).
Proof.
  unfold selectOrganization. intros H.
  apply bind_inv_Ok in H as (l & w1 & Hl & H).
  assert (Hlist : w1 = w /\ forall x, In x l -> In x (organizations (db w))).
  { revert Hl. destruct (isSuperAdmin (Some u)); cbn [negb].
    - unfold bind, query.
      destruct (organizationService.findOne (db w)
                  (user_defaultOrganizationId u)) as [o|] eqn:Hone.
      + intros H'; inversion H'; subst l w1. split; [reflexivity|].
        intros x [<-|[]]. now apply find_some in Hone.
      + destruct (organizationService.getSingleOrganization (db w))
          as [o|] eqn:Hany; [|discriminate].
        intros H'; inversion H'; subst l w1. split; [reflexivity|].
        intros x [<-|[]].
        unfold organizationService.getSingleOrganization in Hany.
        destruct (organizations (db w)); [discriminate|].
        inversion Hany. now left.
    - unfold query. intros H'; inversion H'; subst l w1. split; [reflexivity|].
      intros x Hx.
      unfold organizationService.findOrganizationWithLoginSupport in Hx.
      now apply filter_In in Hx. }
  destruct Hlist as [-> Hlist].
  destruct (find _ l) as [d|] eqn:Hfind.
  - inversion H; subst. apply Hlist. now apply find_some in Hfind.
  - destruct l as [|first rest].
    + destruct allow; [|discriminate].
      unfold organizationService.create, organizationUsersService.create,
        freshId, bind, update, ret in H.
      cbn in H. inversion H; subst. cbn. apply in_or_app. right. now left.
    + inversion H; subst. apply Hlist. now left.
Qed.

(** Off the common login page the tenant resolves to an organization of
    the store. *)
Lemma resolveTenant_direct_row env r configId ssoType w c o w' :
  resolveTenant env r configId ssoType w = (Ok (Some c, Some o), w') ->
  commonPage env r configId ssoType = false ->
  In o (organizations (db w)).
Proof.
  unfold resolveTenant, commonPage, bind, query, ret, throw.
  destruct (JS.truthy configId) eqn:Hc.
  - intros H _.
    destruct (organizationService.getConfigs (db w) configId) as [[c' o']|]
      eqn:Hget; [|discriminate].
    cbn in H. inversion H; subst. exact (findConfig_In _ _ _ _ Hget).
  - cbn [negb andb].
    destruct (negb (isSingleOrganization env) && JS.truthy ssoType) eqn:Hm;
      cbn [andb].
    + destruct (JS.truthy (organizationId r)) eqn:Ho; [|discriminate].
      intros H _.
      destruct (organizationService.fetchOrganizationDetails (db w)
                  (organizationId r)) as [o'|] eqn:Hf; [|discriminate].
      inversion H; subst. now apply find_some in Hf.
    + destruct (negb (isSingleOrganization env) && JS.truthy ssoType
                && JS.truthy (organizationId r)) eqn:Hx.
      * apply andb_prop in Hx as [Hx _]. congruence.
      * discriminate.
Qed.

Lemma provisionUserAndOrganization_rows
    env r configId ssoType o ur el w u og w' :
  (commonPage env r configId ssoType = false ->
   In o (organizations (db w))) ->
  checkEligibility env (Some ur) (domain o) w = (Ok el, w) ->
  provisionUserAndOrganization env o (organizationId r)
    (negb (JS.truthy configId) && JS.truthy ssoType) el w
  = (Ok (u, og), w') ->
  (exists u',
     In u' (users (db w')) /\ user_id u' = user_id u
     /\ user_email u' = user_email u)
  /\ In og (organizations (db w')).
Proof.
  intros Hdirect Hel H.
  destruct (checkEligibility_Ok _ _ _ _ _ _ Hel) as (_ & _ & Hdetails & _).
  destruct (commonPage env r configId ssoType) eqn:Hpage.
  - destruct (el_userDetails el) as [ud|] eqn:Hud.
    + rewrite (provision_existing_user _ _ _ _ _ _ _ _ Hpage Hud) in H.
      apply bind_inv_Ok in H as (og' & w2 & Hsel & H).
      inversion H; subst ud og' w2; clear H.
      split; [|exact (selectOrganization_row _ _ _ _ _ Hsel)].
      assert (Hin : In u (users (db w))).
      { destruct (usersService.findByEmail (db w) (email ur) None [])
          as [[u0 l]|] eqn:Hfind; [|discriminate].
        cbn in Hdetails. inversion Hdetails; subst u0.
        exact (findByEmail_In _ _ _ _ _ _ Hfind). }
      refine (evolves_user _ _ _ _ Hin).
      refine (evolves_trans _ (selectionStore u (db w)) _ _
                (selectOrganization_evolves _ _ _ _ _ Hsel)).
      unfold selectionStore.
      destruct (JS.truthy (user_invitationToken u)); [|apply evolves_refl].
      exact (evolves_trans _ _ _ (evolves_clearInvitationToken _ _)
               (evolves_activate _ _)).
    + unfold provisionUserAndOrganization in H.
      fold (commonPage env r configId ssoType) in H. rewrite Hpage, Hud in H.
      destruct (enableSignUp o && el_allowPersonalWorkspace el);
        [|discriminate].
      unfold organizationService.create, usersService.create,
        organizationUsersService.create, freshId, bind, update, ret in H.
      cbn in H. inversion H; subst u og w'; clear H. cbn. split.
      * eexists. split; [apply in_or_app; right; now left|]. now split.
      * apply in_or_app. right. now left.
  - specialize (Hdirect eq_refl).
    unfold provisionUserAndOrganization in H.
    fold (commonPage env r configId ssoType) in H. rewrite Hpage in H.
    apply bind_inv_Ok in H as (u' & w1 & Hfind & H).
    assert (u' = u /\ og = o /\ w1 = w') as (-> & -> & ->)
      by (inversion H; auto).
    clear H. destruct (enableSignUp o); cbn [negb] in Hfind.
    + split; [exact (findOrCreateUser_row _ _ _ _ _ Hfind)|].
      refine (evolves_organization _ _ _ _ Hdirect).
      refine (_ : evolvesW w w').
      revert Hfind. generalize (el_userResponse el). intros x.
      assert (Hm : movesBy evolvesW (findOrCreateUser x o)).
      { unfold findOrCreateUser, usersService.findOrCreateByEmail,
          usersService.create, organizationUsersService.create,
          organizationUsersService.activate. evolving. }
      apply Hm.
    + split.
      * exists u. split; [exact (findAndActivateUser_row _ _ _ _ _ Hfind)|].
        now split.
      * refine (evolves_organization _ _ _ _ Hdirect).
        refine (_ : evolvesW w w'). revert Hfind.
        assert (Hm : forall e i, movesBy evolvesW (findAndActivateUser e i)).
        { intros e i. unfold findAndActivateUser,
            organizationUsersService.activate. evolving. }
        apply Hm.
Qed.

(** The session of a successful [signIn] names rows of the store: after
    the call a user row has the payload's id and email, and an
    organization row has the payload's organization id and name. *)
Theorem signIn_session_rows env r configId ssoType cookies w p w' :
  signIn env r configId ssoType cookies w = (Ok p, w') ->
  (exists u,
     In u (users (db w')) /\ user_id u = Payload.id p
     /\ user_email u = Payload.email p)
  /\ (exists og,
        In og (organizations (db w'))
        /\ org_id og = Payload.organization_id p
        /\ org_name og = Payload.organization p).
Proof.
  intros H.
  apply signIn_Ok_inv in H
    as (c & o & ur & w1 & el & u & og & Hres & Hex & Hel & Hprov & _ & Hp).
  pose proof (exchangeIdentity_db _ _ _ _ _ _ _ _ _ Hex) as Hdb.
  destruct (provisionUserAndOrganization_rows _ _ _ _ _ _ _ _ _ _ _
              (fun Hd => eq_ind_r (fun s => In o (organizations s))
                           (resolveTenant_direct_row _ _ _ _ _ _ _ _ Hres Hd)
                           Hdb)
              Hel Hprov) as ((u' & Hin & Hid & Hemail) & Hog).
  unfold generateLoginResultPayload, query in Hp.
  inversion Hp; subst p; clear Hp. cbn. split.
  - now exists u'.
  - now exists og.
Qed.

(** ** Instance-level SSO configs *)


(** The [enabled] flag of the instance-level config is no gate: from the
    common login page, with the google or the git tag, [signIn] hands
    the token to that provider whether or not a client id is configured
    for it. *)
Theorem signIn_common_page_calls_provider env r ssoType cookies w tag :
  isSingleOrganization env = false ->
  JS.truthy (organizationId r) = false ->
  ssoType = Some tag ->
  tag = "google" \/ tag = "git" ->
  exchanges (snd (signIn env r None ssoType cookies w))
  = exchanges w ++ [(tag, token r)].
Proof.
  intros Hmulti Horg -> Htag.
  assert (Hres :
    resolveTenant env r None (Some tag) w
    = (Ok (Some (fst (getInstanceSSOConfigs env (Some tag))),
           Some (snd (getInstanceSSOConfigs env (Some tag)))), w)).
  { unfold resolveTenant. rewrite Hmulti, Horg.
    destruct Htag as [->| ->]; reflexivity. }
  rewrite (signIn_resolved _ _ _ _ _ _ _ _ Hres).
  set (c := fst (getInstanceSSOConfigs env (Some tag))) in *.
  set (o := snd (getInstanceSSOConfigs env (Some tag))) in *.
  destruct (exchangeIdentity env (sso c) (sso_configs c) (token r) None
              cookies w) as [res w1] eqn:Hex.
  assert (Hx : exchanges w1 = exchanges w ++ [(tag, token r)]).
  { revert Hex. unfold exchangeIdentity, exchange, bind, ret.
    destruct Htag as [->| ->]; cbn;
      match goal with
      | |- context [match ?x with Ok _ => _ | Throw _ => _ end] =>
          destruct x
      end; intros H; now inversion H. }
  destruct res as [ur|e].
  - destruct (signInResolved env r None (Some tag) cookies c o w)
      as [res' w'] eqn:Hrun. cbn [snd].
    now rewrite (signInResolved_after_exchange _ _ _ _ _ _ _ _ _ _ _ _
                   Hex Hrun).
  - unfold signInResolved. erewrite bind_Throw by exact Hex. exact Hx.
Qed.

(** ** Direct login and the organizations *)






(* ================================================================== *)
(** * The further properties on concrete requests *)
(* ================================================================== *)

Import Scenarios.

Lemma isValidDomain_same_domain_witness :
  domainOf "ann@acme.com" = domainOf "x@y@acme.com"
  /\ isValidDomain (Some "ann@acme.com") (Some "lab.org, acme.com")
     = isValidDomain (Some "x@y@acme.com") (Some "lab.org, acme.com").
Proof.
  split; [reflexivity|].
  apply isValidDomain_same_domain. reflexivity.
Defined.

Lemma isValidDomain_without_at_witness :
  occurs "@" "acme.com" = false
  /\ isValidDomain (Some "acme.com") (Some "lab.org, acme.com")
     = JS.includes (allowList "lab.org, acme.com") "acme.com".
Proof.
  split; [reflexivity|].
  apply isValidDomain_without_at. reflexivity.
Defined.

Lemma isValidDomain_never_comma_or_leading_space_witness :
  isValidDomain (Some "ann@acme.com") (Some "lab.org, acme.com") = true
  /\ occurs "," (domainOf "ann@acme.com") = false
  /\ match domainOf "ann@acme.com" with
     | EmptyString => False
     | String x _ => JS.isWhiteSpace x = false
     end.
Proof.
  split; [reflexivity|].
  apply (isValidDomain_never_comma_or_leading_space "a" "nn@acme.com" "l"
           "ab.org, acme.com").
  reflexivity.
Defined.

(** Ann signs in to acme through its own config. *)
Lemma signIn_token_claims_witness :
  exists p w',
    signIn (instance nothing unlimited) (commonPageRequest "ann@acme.com")
      (Some "cfg-google") (Some "google") None (acmeWorld false)
    = (Ok p, w')
    /\ Payload.auth_token p
       = jwtService_sign (instance nothing unlimited)
           (Payload.id p, Payload.email p, Payload.organization_id p,
            negb (JS.truthy (Some "cfg-google")) && JS.truthy (Some "google")).
Proof.
  do 2 eexists. split; [evaluate|].
  eapply (signIn_token_claims (instance nothing unlimited)
           (commonPageRequest "ann@acme.com") (Some "cfg-google")
           (Some "google") None (acmeWorld false)).
  evaluate.
Defined.

Lemma signIn_session_email_witness :
  exists p w',
    signIn (instance nothing unlimited) (commonPageRequest "ann@acme.com")
      (Some "cfg-google") None None (acmeWorld false)
    = (Ok p, w')
    /\ exists c o ur w1,
         resolveTenant (instance nothing unlimited)
           (commonPageRequest "ann@acme.com") (Some "cfg-google") None
           (acmeWorld false)
         = (Ok (Some c, Some o), acmeWorld false)
         /\ exchangeIdentity (instance nothing unlimited) (sso c)
              (sso_configs c) (token (commonPageRequest "ann@acme.com"))
              (Some "cfg-google") None (acmeWorld false)
            = (Ok (Some ur), w1)
         /\ email ur = Some (Payload.email p).
Proof.
  do 2 eexists. split; [evaluate|].
  eapply (signIn_session_email (instance nothing unlimited)
           (commonPageRequest "ann@acme.com") (Some "cfg-google") None None
           (acmeWorld false)).
  evaluate.
Defined.

(** The openid tag from the common login page of an instance without
    the OIDC license. *)
Lemma signIn_openid_gate_witness :
  signIn unlicensed (commonPageRequest "ann@acme.com") None (Some "openid")
    (Some (mkCookies (Some "verifier"))) (acmeWorld false)
  = (Throw (UnauthorizedException (Some "OIDC login disabled")),
     acmeWorld false).
Proof.
  eapply (signIn_openid_gate unlicensed); evaluate.
Defined.

Lemma signIn_invalid_identity_witness :
  signIn anonymous (commonPageRequest "ann@acme.com") None (Some "google")
    None (acmeWorld false)
  = (Throw (UnauthorizedException (Some "Invalid credentials")),
     mkWorld (db (acmeWorld false)) [("google", "ann@acme.com")]).
Proof.
  eapply signIn_invalid_identity; evaluate.
Defined.

Lemma signIn_domain_verification_failed_witness :
  signIn (instance nothing unlimited) (commonPageRequest "user@other.com")
    (Some "cfg-google") None None (acmeWorld true)
  = (Throw (UnauthorizedException
              (Some "You cannot sign in using the mail id - Domain verification failed")),
     mkWorld (db (acmeWorld true)) [("google", "user@other.com")])
  /\ db (mkWorld (db (acmeWorld true)) [("google", "user@other.com")])
     = db (acmeWorld true).
Proof.
  eapply signIn_domain_verification_failed; evaluate.
Defined.

(** Zoe is unknown and the system has users already: no personal
    workspace is allowed. *)
Lemma signIn_unknown_user_no_signup_witness :
  signIn (instance nothing unlimited) (commonPageRequest "zoe@new.io")
    None (Some "google") None (acmeWorld false)
  = (Throw (UnauthorizedException
              (Some "User does not exist in the workspace")),
     mkWorld (db (acmeWorld false)) [("google", "zoe@new.io")])
  /\ db (mkWorld (db (acmeWorld false)) [("google", "zoe@new.io")])
     = db (acmeWorld false).
Proof.
  eapply signIn_unknown_user_no_signup; evaluate.
Defined.

(** Bob's only membership is invited, so no organization is a
    candidate; his token is pending before and after the call. *)
Lemma signIn_no_candidate_organization_witness :
  signIn (instance nothing unlimited) (commonPageRequest "bob@acme.com")
    None (Some "google") None bobInvited
  = (Throw (UnauthorizedException
              (Some "User not included in any workspace")),
     mkWorld (db bobInvited) [("google", "bob@acme.com")])
  /\ db (mkWorld (db bobInvited) [("google", "bob@acme.com")])
     = db bobInvited.
Proof.
  eapply signIn_no_candidate_organization; evaluate.
Defined.

Lemma signIn_super_admin_without_organization_witness :
  signIn (instance nothing unlimited) (commonPageRequest "root@acme.com")
    None (Some "google") None rootAlone
  = (Throw (TypeError "Cannot read properties of undefined (reading 'id')"),
     mkWorld (db rootAlone) [("google", "root@acme.com")])
  /\ db (mkWorld (db rootAlone) [("google", "root@acme.com")])
     = db rootAlone.
Proof.
  eapply signIn_super_admin_without_organization; evaluate.
Defined.

(** The first user of the system. *)
Lemma signIn_first_sign_in_witness :
  exists p w' u og m,
    signIn (instance nothing unlimited) (commonPageRequest "zoe@new.io")
      None (Some "google") None emptyWorld
    = (Ok p, w')
    /\ users (db w') = users (db emptyWorld) ++ [u]
    /\ organizations (db w') = organizations (db emptyWorld) ++ [og]
    /\ organizationUsers (db w') = organizationUsers (db emptyWorld) ++ [m]
    /\ user_id u = Payload.id p
    /\ org_id og = Payload.organization_id p
    /\ Payload.organization p = Some "Untitled workspace"
    /\ Payload.admin p = true.
Proof.
  destruct (signIn_first_sign_in (instance nothing unlimited)
              (commonPageRequest "zoe@new.io") None (Some "google") None
              emptyWorld
              (Payload.mk "gen-1" "signed" "zoe@new.io" (Some "zoe")
                 (Some "Doe") (Some "gen-0") (Some "Untitled workspace")
                 false true [] [])
              (snd (signIn (instance nothing unlimited)
                      (commonPageRequest "zoe@new.io") None (Some "google")
                      None emptyWorld)))
    as (u & og & m & Hu & Ho & Hm & _ & Hid & _ & _ & Hoid & _ & Hname & _
        & _ & Hadmin); [evaluate ..|].
  do 5 eexists. split; [evaluate|].
  repeat split; eassumption.
Defined.

Lemma signIn_default_first_name_witness :
  exists p w',
    signIn (instance nothing unlimited) (commonPageRequest "zoe@new.io")
      None (Some "google") None emptyWorld
    = (Ok p, w')
    /\ beforeFirst "@" "zoe@new.io" = "zoe"
    /\ Payload.first_name p = Some "zoe".
Proof.
  do 2 eexists. split; [evaluate|]. split; [reflexivity|].
  edestruct (signIn_default_first_name (instance nothing unlimited)
               (commonPageRequest "zoe@new.io") None (Some "google") None
               emptyWorld)
    as (c & o & ur & w1 & Hres & Hex & H); [evaluate ..|].
  cbv in Hres. inversion Hres; subst c o; clear Hres.
  cbv in Hex. inversion Hex; subst ur w1; clear Hex.
  exact H.
Defined.

(** Bob, invited into acme, signs in through acme's own config: his
    membership is activated, nothing is created. *)
Lemma signIn_member_direct_login_witness :
  signIn (instance nothing unlimited) (commonPageRequest "bob@acme.com")
    (Some "cfg-google") None None bobInvited
  = generateLoginResultPayload (instance nothing unlimited) bob (acme false)
      false
      (mkWorld (memberLoginStore bobRow (db bobInvited))
         [("google", "bob@acme.com")])
  /\ organizationUsers (memberLoginStore bobRow (db bobInvited))
     = [member "ou-1" bob (acme false) Active].
Proof.
  split; [|reflexivity].
  etransitivity;
    [eapply (signIn_member_direct_login (instance nothing unlimited)
               (commonPageRequest "bob@acme.com") (Some "cfg-google") None
               None bobInvited);
     evaluate
    |evaluate].
Defined.

Lemma findAndActivateUser_idempotent_witness :
  exists w1,
    findAndActivateUser (Some "bob@acme.com") (Some "org-acme") bobInvited
    = (Ok bob, w1)
    /\ organizationUsers (db w1) = [member "ou-1" bob (acme false) Active]
    /\ findAndActivateUser (Some "bob@acme.com") (Some "org-acme") w1
       = (Ok bob, w1).
Proof.
  eexists. split; [evaluate|]. split; [evaluate|].
  apply (findAndActivateUser_idempotent (Some "bob@acme.com")
           (Some "org-acme") bobInvited).
  evaluate.
Defined.

(** Ann, a member of lab only, signs in to acme twice: the first run
    creates her membership, invited; the second activates it. *)
Lemma findOrCreateUser_again_witness :
  exists w1 w2 m,
    findOrCreateUser (identity "ann@acme.com") (acme true) annInLab
    = (Ok ann, w1)
    /\ organizationUsers (db w1)
       = [member "ou-1" ann lab Active;
          mkOrganizationUser "gen-0" "user-ann" (Some "org-acme") Invited]
    /\ findOrCreateUser (identity "ann@acme.com") (acme true) w1
       = (Ok ann, w2)
    /\ In m (organizationUsers (db w2))
    /\ ou_userId m = user_id ann
    /\ ou_organizationId m = org_id (acme true)
    /\ ou_status m = Active.
Proof.
  edestruct (findOrCreateUser_again (identity "ann@acme.com") (acme true)
               annInLab ann)
    as (w2 & m & Hrun & _ & _ & Hin & Hu & Ho & Hst); [evaluate ..|].
  eexists. exists w2, m. split; [evaluate|]. split; [evaluate|].
  repeat split; eassumption.
Defined.

Lemma signIn_session_rows_witness :
  exists p w',
    signIn (instance nothing unlimited) (commonPageRequest "zoe@new.io")
      None (Some "google") None emptyWorld
    = (Ok p, w')
    /\ (exists u,
          In u (users (db w')) /\ user_id u = Payload.id p
          /\ user_email u = Payload.email p)
    /\ (exists og,
          In og (organizations (db w'))
          /\ org_id og = Payload.organization_id p
          /\ org_name og = Payload.organization p).
Proof.
  do 2 eexists. split; [evaluate|].
  apply (signIn_session_rows (instance nothing unlimited)
           (commonPageRequest "zoe@new.io") None (Some "google") None
           emptyWorld).
  evaluate.
Defined.

(** No client id is configured for google on this instance. *)
Lemma signIn_common_page_calls_provider_witness :
  configService_get (instance nothing unlimited) "SSO_GOOGLE_OAUTH2_CLIENT_ID"
  = None
  /\ exchanges
       (snd (signIn (instance nothing unlimited)
               (commonPageRequest "ann@acme.com") None (Some "google") None
               (acmeWorld false)))
     = exchanges (acmeWorld false) ++ [("google", "ann@acme.com")].
Proof.
  split; [reflexivity|].
  apply (signIn_common_page_calls_provider (instance nothing unlimited)
           (commonPageRequest "ann@acme.com") (Some "google") None
           (acmeWorld false) "google");
    (evaluate || (left; reflexivity)).
Defined.


